(** * onnxruntime: core/graph/model.cc

    A shallow embedding of the [Model] class of onnxruntime: the two
    constructors with their operator-set negotiation, [ToProto], and the
    load and save entry points over a byte buffer, a stream, a descriptor,
    a file descriptor and a file path.

    The protobuf messages are records holding the fields model.cc reads or
    writes.  What model.cc only calls (the schema registry, the graph, the
    protobuf codec, the platform environment) is an interface: a class
    whose fields are the operations called. *)

From stdpp Require Import base option list strings gmap fin_maps pretty.
From Stdlib Require Import ZArith.

Local Open Scope string_scope.
Local Open Scope Z_scope.
Local Open Scope list_scope.

(** ** Protobuf messages *)

(** [OperatorSetIdProto]: a domain name and an int64 version. *)
Record OperatorSetIdProto := mk_opset {
  domain : string;
  version : Z
}.

Global Instance OperatorSetIdProto_eq_dec : EqDecision OperatorSetIdProto.
Proof. solve_decision. Defined.

(** [StringStringEntryProto]: one metadata property. *)
Record StringStringEntryProto := mk_prop {
  key : string;
  value : string
}.

(** [FunctionProto]: model.cc reads the name only; the rest is carried. *)
Record FunctionProto := mk_function {
  name : string;
  function_body : list string
}.

(** Modelled from the spec: the two spellings of the default operator
    domain, declared in core/graph/constants.h.  The canonical key is the
    empty string and the alias is the string ai.onnx, as the comment in the
    decode constructor says. *)
Definition kOnnxDomain : string := EmptyString.
Definition kOnnxDomainAlias : string := "ai.onnx".

(** [gsl::narrow_cast<int>] of an int64: the value is cut to 32 bits and
    read as a signed integer. *)
Definition narrow_cast_int (v : Z) : Z :=
  (v + 2 ^ 31) mod 2 ^ 32 - 2 ^ 31.

(** ** The schema registry and the graph descriptor, as model.cc uses them *)

Class Schema := {
  (** one caller-supplied schema source *)
  IOnnxRuntimeOpSchemaCollection : Type;
  SchemaRegistryManager : Type;
  (** [std::make_shared<SchemaRegistryManager>()] *)
  new_SchemaRegistryManager : SchemaRegistryManager;
  RegisterRegistry :
    SchemaRegistryManager → IOnnxRuntimeOpSchemaCollection → SchemaRegistryManager;
  (** the unordered map the registry returns, as the sequence of pairs its
      iteration yields *)
  GetLatestOpsetVersions : SchemaRegistryManager → bool → list (string * Z);
  GraphProto : Type;
  (** a default-constructed [GraphProto] *)
  GraphProto_default : GraphProto;
  set_name : string → GraphProto → GraphProto;
  (** [ONNX_NAMESPACE::Version::IR_VERSION] *)
  IR_VERSION : Z;
  kNoVersion : Z
}.

Section ModelData.
Context `{Schema}.

(** [ModelProto].  Optional fields are options: [has_graph] and
    [has_ir_version] test them. *)
Record ModelProto := mk_model_proto {
  ir_version : option Z;
  producer_name : string;
  producer_version : string;
  model_domain : string;
  model_version : option Z;
  doc_string : string;
  graph : option GraphProto;
  opset_import : list OperatorSetIdProto;
  metadata_props : list StringStringEntryProto;
  functions : list FunctionProto
}.

Definition ModelProto_default : ModelProto :=
  {| ir_version := None; producer_name := EmptyString;
     producer_version := EmptyString; model_domain := EmptyString;
     model_version := None; doc_string := EmptyString; graph := None;
     opset_import := []; metadata_props := []; functions := [] |}.

Definition has_graph (p : ModelProto) : bool := bool_decide (is_Some (graph p)).

Definition opset_import_size (p : ModelProto) : nat := length (opset_import p).

(** [mutable_graph()]: the graph field, created empty when absent. *)
Definition mutable_graph (p : ModelProto) : GraphProto :=
  default GraphProto_default (graph p).

Definition with_graph (g : GraphProto) (p : ModelProto) : ModelProto :=
  {| ir_version := ir_version p; producer_name := producer_name p;
     producer_version := producer_version p; model_domain := model_domain p;
     model_version := model_version p; doc_string := doc_string p;
     graph := Some g;
     opset_import := opset_import p; metadata_props := metadata_props p;
     functions := functions p |}.

Definition with_opset_import (l : list OperatorSetIdProto) (p : ModelProto) : ModelProto :=
  {| ir_version := ir_version p; producer_name := producer_name p;
     producer_version := producer_version p; model_domain := model_domain p;
     model_version := model_version p; doc_string := doc_string p;
     graph := graph p;
     opset_import := l; metadata_props := metadata_props p;
     functions := functions p |}.

(** [Graph]: the arguments its constructor receives.  The function map
    holds pointers into the descriptor's function sequence, here the index
    of the element pointed to. *)
Record Graph := mk_graph {
  graph_proto : GraphProto;
  graph_domain_to_version : gmap string Z;
  graph_ir_version : Z;
  graph_schema_registry : SchemaRegistryManager;
  graph_model_functions : gmap string nat
}.

(** [Model]: the owned descriptor, the metadata copy and the graph. *)
Record Model := mk_model {
  model_proto_ : ModelProto;
  model_metadata_ : gmap string string;
  graph_ : Graph
}.

(** A C++ call either returns or throws a [std::exception] with a
    message. *)
Inductive result (A : Type) :=
  | Return (a : A)
  | Throw (what : string).
Global Arguments Return {A} a.
Global Arguments Throw {A} what.

(** ** Operator-set negotiation *)

(** [Model::IrVersion]. *)
Definition IrVersion (p : ModelProto) : Z :=
  match ir_version p with
  | Some v => v
  | None => kNoVersion
  end.

(** One iteration of the loop over [opset_import()] in the decode
    constructor: the alias is recorded under the canonical key. *)
Definition record_opset (domain_to_version : gmap string Z) (opSet : OperatorSetIdProto)
    : gmap string Z :=
  if decide (domain opSet = kOnnxDomainAlias)
  then <[kOnnxDomain := narrow_cast_int (version opSet)]> domain_to_version
  else <[domain opSet := narrow_cast_int (version opSet)]> domain_to_version.

(** The key an import is recorded under: the alias becomes the canonical
    key, other domains stay. *)
Definition canonical_domain (d : string) : string :=
  if decide (d = kOnnxDomainAlias) then kOnnxDomain else d.

(** The warning the same iteration logs: the version, when the entry is
    for the default domain under either spelling and is below 7. *)
Definition low_opset_warning (opSet : OperatorSetIdProto) : option Z :=
  if bool_decide (domain opSet = EmptyString ∨ domain opSet = kOnnxDomainAlias)
     && (version opSet <? 7)
  then Some (version opSet) else None.

(** The table after the loop over the descriptor's list. *)
Definition explicit_table (imports : list OperatorSetIdProto) : gmap string Z :=
  fold_left record_opset imports ∅.

(** One iteration of the loop over the registry's latest versions: a
    domain the table lacks is added to the table and appended to the
    descriptor's list. *)
Definition fill_default (acc : gmap string Z * list OperatorSetIdProto)
    (latest : string * Z) : gmap string Z * list OperatorSetIdProto :=
  match acc.1 !! latest.1 with
  | None => (<[latest.1 := latest.2 ]> acc.1, acc.2 ++ [mk_opset latest.1 latest.2])
  | Some _ => acc
  end.

Definition fill_defaults (domain_map : list (string * Z))
    (acc : gmap string Z * list OperatorSetIdProto) :=
  fold_left fill_default domain_map acc.

(** The entries the second loop appends to a list whose table is [t]:
    one per registry domain the table lacks, in the registry's order. *)
Definition missing_defaults (domain_map : list (string * Z)) (t : gmap string Z)
    : list OperatorSetIdProto :=
  (λ d, mk_opset d.1 d.2) <$> filter (λ d, t !! d.1 = None) domain_map.

(** The registry of a model: the manager with every local registry
    registered in order.  A null list registers nothing. *)
Definition make_schema_registry
    (local_registries : option (list IOnnxRuntimeOpSchemaCollection))
    : SchemaRegistryManager :=
  fold_left RegisterRegistry (default [] local_registries) new_SchemaRegistryManager.

Definition metadata_of_props (props : list StringStringEntryProto) : gmap string string :=
  fold_left (λ m prop, <[key prop := value prop]> m) props ∅.

(** name to pointer, the pointer being the position in [fs]; a later
    function of the same name replaces the earlier one *)
Definition functions_map_from (start : nat) (fs : list FunctionProto) : gmap string nat :=
  fold_left (λ m '(i, f), <[name f := i]> m) (zip (seq start (length fs)) fs) ∅.

(** The decode constructor past its three checks: metadata, registry,
    the two loops of the negotiation, the function map, the graph. *)
Definition Model_from_checked_proto (model_proto : ModelProto)
    (local_registries : option (list IOnnxRuntimeOpSchemaCollection)) : Model :=
  let model_metadata := metadata_of_props (metadata_props model_proto) in
  let schema_registry := make_schema_registry local_registries in
  let domain_to_version := explicit_table (opset_import model_proto) in
  let domain_map := GetLatestOpsetVersions schema_registry false in
  let filled :=
    fill_defaults domain_map (domain_to_version, opset_import model_proto) in
  let model_proto_ := with_opset_import filled.2 model_proto in
  let model_functions_map := functions_map_from 0 (functions model_proto_) in
  {| model_proto_ := model_proto_;
     model_metadata_ := model_metadata;
     graph_ := mk_graph (mutable_graph model_proto_) filled.1
                 (IrVersion model_proto_) schema_registry
                 model_functions_map |}.

(** [Model::Model(std::unique_ptr<ModelProto>, local_registries)], the
    decode constructor.  A null descriptor pointer and a null registry
    list pointer are [None]. *)
Definition Model_from_proto (model_proto : option ModelProto)
    (local_registries : option (list IOnnxRuntimeOpSchemaCollection))
    : result Model :=
  match model_proto with
  | None => Throw "ModelProto was null."
  | Some model_proto =>
    if negb (has_graph model_proto) then
      Throw "ModelProto does not have a graph."
    else if bool_decide (opset_import_size model_proto = 0%nat) then
      Throw ("Missing opset in the model. All ModelProtos MUST have at least one entry that"
             +:+ " specifies which version of the ONNX OperatorSet is being imported.")
    else Return (Model_from_checked_proto model_proto local_registries)
  end.

(** The warnings the decode constructor logs, in order. *)
Definition Model_from_proto_warnings (model_proto : ModelProto) : list Z :=
  omap low_opset_warning (opset_import model_proto).

End ModelData.

(** ** Status *)

Inductive StatusCategory := NONE | SYSTEM | ONNXRUNTIME.

Global Instance StatusCategory_eq_dec : EqDecision StatusCategory.
Proof. solve_decision. Defined.

(** [common::Status]: the OK status, or a category, an integer code and a
    message. *)
Inductive Status :=
  | Status_OK
  | Status_error (category : StatusCategory) (code : Z) (msg : string).

Definition IsOK (st : Status) : bool :=
  match st with Status_OK => true | Status_error _ _ _ => false end.

Definition Category (st : Status) : StatusCategory :=
  match st with Status_OK => NONE | Status_error c _ _ => c end.

Definition Code (st : Status) : Z :=
  match st with Status_OK => 0 | Status_error _ c _ => c end.

Definition ErrorMessage (st : Status) : string :=
  match st with Status_OK => EmptyString | Status_error _ _ m => m end.

(** ** The graph, the codec and the platform, as model.cc uses them *)

(** The calls below are taken as returning: an exception out of the
    graph, the codec or the platform is outside this model, in which only
    the decode constructor throws. *)

Class Engine `{Schema} := {
  (** the [common::StatusCode] enumerators model.cc names *)
  FAIL : Z;
  INVALID_ARGUMENT : Z;
  NO_SUCHFILE : Z;
  INVALID_PROTOBUF : Z;
  (** the two [errno] values [LoadModel] tells apart *)
  ENOENT : Z;
  EINVAL : Z;
  (** [Graph::Resolve(bool)]: the status, and the graph as the call
      leaves it *)
  Resolve : Graph → bool → Status * Graph;
  ToGraphProto : Graph → GraphProto;
  (** [ParseFromArray(p_bytes, count)]: whether it parsed, and the
      message it filled *)
  ParseFromArray : list Byte.byte → Z → bool * ModelProto;
  (** parsing from a [FileInputStream] over a descriptor: whether it
      parsed, the message, and the stream's [GetErrno()] afterwards *)
  ParseFromFileInputStream : Z → bool * ModelProto * Z;
  (** [std::istream] with the two tests model.cc makes, and parsing
      from it: whether it parsed, the message, the stream afterwards *)
  istream : Type;
  good : istream → bool;
  eof : istream → bool;
  ParseFromIstream : istream → bool * ModelProto * istream;
  (** [SerializeToZeroCopyStream] and [Flush] over a [FileOutputStream]
      on a descriptor *)
  SerializeToZeroCopyStream : ModelProto → Z → bool;
  Flush : ModelProto → Z → bool;
  (** [Env::Default()]: the status and what the call leaves in [fd] *)
  FileOpenRd : string → Status * Z;
  FileOpenWr : string → Status * Z;
  FileClose : Z → Status
}.

Section Lifecycle.
Context `{Engine}.

(** [Model::Model(graph_name, is_onnx_domain_only, model_metadata,
    local_registries, domain_to_version, model_functions)], the fresh
    constructor.  The two unordered maps it iterates are given as the
    sequences their iteration yields. *)
Definition Model_fresh (graph_name : string) (is_onnx_domain_only : bool)
    (model_metadata : list (string * string))
    (local_registries : list IOnnxRuntimeOpSchemaCollection)
    (domain_to_version : list (string * Z))
    (model_functions : list FunctionProto) : Model :=
  let schema_registry := make_schema_registry (Some local_registries) in
  let p_domain_to_version :=
    if bool_decide (domain_to_version = [])
    then GetLatestOpsetVersions schema_registry is_onnx_domain_only
    else domain_to_version in
  let model_proto_ :=
    {| ir_version := Some IR_VERSION;
       producer_name := EmptyString; producer_version := EmptyString;
       model_domain := EmptyString; model_version := None;
       doc_string := EmptyString;
       graph := Some (set_name graph_name GraphProto_default);
       opset_import := (λ d, mk_opset d.1 d.2) <$> p_domain_to_version;
       metadata_props := (λ md, mk_prop md.1 md.2) <$> model_metadata;
       functions := model_functions |} in
  {| model_proto_ := model_proto_;
     model_metadata_ := list_to_map model_metadata;
     graph_ := mk_graph (mutable_graph model_proto_)
                 (list_to_map p_domain_to_version) (IrVersion model_proto_)
                 schema_registry (functions_map_from 0 model_functions) |}.

Definition with_graph_ (g : Graph) (m : Model) : Model :=
  {| model_proto_ := model_proto_ m; model_metadata_ := model_metadata_ m;
     graph_ := g |}.

(** [Model::ToProto]: the descriptor's graph field is overwritten with
    the graph's current form, and the descriptor is returned by value.
    The graph points at that same field, so it sees the new value. *)
Definition ToProto (m : Model) : ModelProto * Model :=
  let g := ToGraphProto (graph_ m) in
  let model_proto_ := with_graph g (model_proto_ m) in
  (model_proto_,
   {| model_proto_ := model_proto_; model_metadata_ := model_metadata_ m;
      graph_ := mk_graph g (graph_domain_to_version (graph_ m))
                  (graph_ir_version (graph_ m))
                  (graph_schema_registry (graph_ m))
                  (graph_model_functions (graph_ m)) |}).

(** ** Effects *)

(** What a load or save does to the outside, in order. *)
Inductive event :=
  | EvFileOpenRd (file_path : string)
  | EvFileOpenWr (file_path : string)
  | EvFileClose (fd : Z)
  | EvParseFromArray
  | EvParseFromFd (fd : Z)
  | EvNewModel
  | EvWarning (opset : Z)
  | EvResolve (full : bool)
  | EvSerialize (fd : Z).

Global Instance event_eq_dec : EqDecision event.
Proof. solve_decision. Defined.

(** The caller's output handle [std::shared_ptr<Model>&] and the events
    so far. *)
Record state := mk_state {
  events : list event;
  p_model : option Model
}.

(** A computation runs on a state and returns or throws; the state
    survives a throw. *)
Definition M (A : Type) : Type := state → result A * state.

Global Instance M_ret : MRet M := λ A a s, (Return a, s).
Global Instance M_bind : MBind M := λ A B f c s,
  match c s with
  | (Return a, s') => f a s'
  | (Throw what, s') => (Throw what, s')
  end.

Definition throw {A} (what : string) : M A := λ s, (Throw what, s).

(** [try { body } catch (const std::exception& ex) { handler }] *)
Definition try_catch {A} (body : M A) (handler : string → M A) : M A := λ s,
  match body s with
  | (Return a, s') => (Return a, s')
  | (Throw what, s') => handler what s'
  end.

Definition emit (e : event) : M unit := λ s,
  (Return tt, {| events := events s ++ [e]; p_model := p_model s |}).

Definition emit_all (es : list event) : M unit := λ s,
  (Return tt, {| events := events s ++ es; p_model := p_model s |}).

(** assignment to, or [reset] of, the output handle *)
Definition bind_handle (m : Model) : M unit := λ s,
  (Return tt, {| events := events s; p_model := Some m |}).

(** [new Model(std::move(model_proto), local_registries)]: the decode
    constructor, with the warnings it logs once past its checks. *)
Definition new_Model (model_proto : option ModelProto)
    (local_registries : option (list IOnnxRuntimeOpSchemaCollection)) : M Model :=
  emit EvNewModel;;
  match Model_from_proto model_proto local_registries with
  | Throw what => throw what
  | Return m =>
      emit_all (EvWarning <$> from_option Model_from_proto_warnings [] model_proto);;
      mret m
  end.

(** [Resolve] on the graph of a model held by reference: the model is
    returned as the call leaves it. *)
Definition Resolve_model (m : Model) (full : bool) : M (Status * Model) :=
  emit (EvResolve full);;
  let r := Resolve (graph_ m) full in
  mret (r.1, with_graph_ r.2 m).

(** [model->MainGraph().Resolve(full)] through the output handle, which
    was just bound to [m]: the handle sees the resolved model. *)
Definition MainGraph_Resolve (m : Model) (full : bool) : M Status :=
  r ← Resolve_model m full;
  bind_handle r.2;;
  mret r.1.

(** [ORT_RETURN_IF_ERROR(expr); rest] *)
Definition ORT_RETURN_IF_ERROR (expr : M Status) (rest : M Status) : M Status :=
  _status ← expr;
  if negb (IsOK _status) then mret _status else rest.

(** ** Load *)

(** [Model::Load(std::istream&, ModelProto* p_model_proto)].  The stream
    and the pointed-to message are returned as the call leaves them; a
    null pointer is [None]. *)
Definition Model_Load_istream (model_istream : istream) (p_model_proto : option ModelProto)
    : Status * istream * option ModelProto :=
  if negb (good model_istream) then
    (Status_error ONNXRUNTIME INVALID_ARGUMENT "Invalid istream object.",
     model_istream, p_model_proto)
  else match p_model_proto with
  | None =>
    (Status_error ONNXRUNTIME INVALID_ARGUMENT "Null model_proto ptr.",
     model_istream, p_model_proto)
  | Some _ =>
    let parsed := ParseFromIstream model_istream in
    let result := parsed.1.1 && eof parsed.2 in
    if negb result then
      (Status_error ONNXRUNTIME INVALID_PROTOBUF
         "Failed to load model because protobuf parsing failed.",
       parsed.2, Some parsed.1.2)
    else (Status_OK, parsed.2, Some parsed.1.2)
  end.

(** What both descriptor overloads do once the graph is known present. *)
Definition construct_and_resolve (model_proto : ModelProto)
    (local_registries : option (list IOnnxRuntimeOpSchemaCollection)) : M Status :=
  caught ← try_catch
      (m ← new_Model (Some model_proto) local_registries;
       bind_handle m;;
       mret (inl m))
      (λ ex, mret (inr (Status_error ONNXRUNTIME INVALID_ARGUMENT
                          ("Failed to load model with error: " +:+ ex))));
  match caught with
  | inr st => mret st
  | inl m => ORT_RETURN_IF_ERROR (MainGraph_Resolve m true) (mret Status_OK)
  end.

(** [Model::Load(const ModelProto&, std::shared_ptr<Model>&,
    local_registries)]. *)
Definition Model_Load_proto (model_proto : ModelProto)
    (local_registries : option (list IOnnxRuntimeOpSchemaCollection)) : M Status :=
  if negb (has_graph model_proto) then
    mret (Status_error ONNXRUNTIME INVALID_ARGUMENT "No graph was found in the protobuf.")
  else construct_and_resolve model_proto local_registries.

(** [Model::Load(std::unique_ptr<ModelProto>, std::shared_ptr<Model>&,
    local_registries)].  The pointer is dereferenced at once, so it is
    taken non-null. *)
Definition Model_Load_unique_ptr (p_model_proto : ModelProto)
    (local_registries : option (list IOnnxRuntimeOpSchemaCollection)) : M Status :=
  if negb (has_graph p_model_proto) then
    mret (Status_error ONNXRUNTIME INVALID_ARGUMENT "No graph was found in the protobuf.")
  else construct_and_resolve p_model_proto local_registries.

(** [Model::LoadFromBytes]. *)
Definition Model_LoadFromBytes (count : Z) (p_bytes : list Byte.byte)
    (local_registries : option (list IOnnxRuntimeOpSchemaCollection)) : M Status :=
  emit EvParseFromArray;;
  let parsed := ParseFromArray p_bytes count in
  let result := parsed.1 in
  if negb result then
    mret (Status_error ONNXRUNTIME INVALID_PROTOBUF "Protobuf parsing failed.")
  else
    m ← new_Model (Some parsed.2) local_registries;
    bind_handle m;;
    ORT_RETURN_IF_ERROR (MainGraph_Resolve m true) (mret Status_OK).

(** [Model::Load(int fd, std::shared_ptr<Model>&, local_registries)], in
    the branch for protobuf 3.2.0 and later. *)
Definition Model_Load_fd (fd : Z)
    (local_registries : option (list IOnnxRuntimeOpSchemaCollection)) : M Status :=
  if bool_decide (fd < 0) then
    mret (Status_error ONNXRUNTIME INVALID_ARGUMENT "<p_fd> less than 0.")
  else
    emit (EvParseFromFd fd);;
    let parsed := ParseFromFileInputStream fd in
    let result := parsed.1.1 && bool_decide (parsed.2 = 0) in
    if negb result then
      mret (Status_error ONNXRUNTIME INVALID_PROTOBUF "Protobuf parsing failed.")
    else
      m ← new_Model (Some parsed.1.2) local_registries;
      bind_handle m;;
      ORT_RETURN_IF_ERROR (MainGraph_Resolve m true) (mret Status_OK).

Definition Env_FileOpenRd (file_path : string) : M (Status * Z) :=
  emit (EvFileOpenRd file_path);; mret (FileOpenRd file_path).

Definition Env_FileOpenWr (file_path : string) : M (Status * Z) :=
  emit (EvFileOpenWr file_path);; mret (FileOpenWr file_path).

Definition Env_FileClose (fd : Z) : M Status :=
  emit (EvFileClose fd);; mret (FileClose fd).

(** The [switch] of [LoadModel] on the code of a failed open of category
    [SYSTEM]. *)
Definition open_failure_status (file_path : string) (code : Z) : Status :=
  if bool_decide (code = ENOENT) then
    Status_error ONNXRUNTIME NO_SUCHFILE
      ("Load model " +:+ file_path +:+ " failed. File doesn't exist")
  else if bool_decide (code = EINVAL) then
    Status_error ONNXRUNTIME INVALID_ARGUMENT ("Load model " +:+ file_path +:+ " failed")
  else
    Status_error ONNXRUNTIME FAIL ("system error number " +:+ pretty code).

(** [LoadModel], the template behind both path overloads of
    [Model::Load]; the path is taken in its multi-byte form. *)
Definition LoadModel (file_path : string)
    (local_registries : option (list IOnnxRuntimeOpSchemaCollection)) : M Status :=
  opened ← Env_FileOpenRd file_path;
  let status := opened.1 in
  let fd := opened.2 in
  if negb (IsOK status) && bool_decide (Category status = SYSTEM) then
    mret (open_failure_status file_path (Code status))
  else
    caught ← try_catch
        (status ← Model_Load_fd fd local_registries; mret (inl status))
        (λ ex, Env_FileClose fd;; mret (inr (Status_error ONNXRUNTIME FAIL ex)));
    match caught with
    | inr st => mret st
    | inl status =>
        if negb (IsOK status) then Env_FileClose fd;; mret status
        else Env_FileClose fd
    end.

Definition Model_Load_path := LoadModel.

(** ** Save *)

(** [Model::Save(Model&, int p_fd)]; the model is returned as the call
    leaves it.  [Resolve()] is called with its default argument. *)
Definition Model_Save_fd (model : Model) (p_fd : Z) : M (Status * Model) :=
  if bool_decide (p_fd < 0) then
    mret (Status_error ONNXRUNTIME INVALID_ARGUMENT "<p_fd> is less than 0.", model)
  else
    resolved ← Resolve_model model false;
    if negb (IsOK resolved.1) then mret resolved
    else
      let model_proto := ToProto resolved.2 in
      emit (EvSerialize p_fd);;
      let result := SerializeToZeroCopyStream model_proto.1 p_fd
                    && Flush model_proto.1 p_fd in
      if result then mret (Status_OK, model_proto.2)
      else mret (Status_error ONNXRUNTIME INVALID_PROTOBUF "Protobuf serialization failed.",
                 model_proto.2).

(** [SaveModel], the template behind both path overloads of
    [Model::Save]. *)
Definition SaveModel (model : Model) (file_path : string) : M (Status * Model) :=
  opened ← Env_FileOpenWr file_path;
  let status := opened.1 in
  let fd := opened.2 in
  if negb (IsOK status) then mret (status, model)
  else
    caught ← try_catch
        (saved ← Model_Save_fd model fd; mret (inl saved))
        (λ ex, Env_FileClose fd;; mret (inr (Status_error ONNXRUNTIME FAIL ex)));
    match caught with
    | inr st => mret (st, model)
    | inl saved =>
        if negb (IsOK saved.1) then Env_FileClose fd;; mret saved
        else closed ← Env_FileClose fd; mret (closed, saved.2)
    end.

Definition Model_Save_path := SaveModel.

(** A caller's state before a call: no events yet, and the handle as the
    caller holds it. *)
Definition initially (handle : option Model) : state :=
  {| events := []; p_model := handle |}.

(** ** Vocabulary of the properties *)

(** A model some constructor returned.  The fresh constructor has no
    check of its own; its models are taken with a registry that reports
    at least one domain when the caller's map is empty. *)
Inductive constructed : Model → Prop :=
  | constructed_fresh graph_name is_onnx_domain_only model_metadata
        local_registries domain_to_version model_functions :
      (domain_to_version = [] →
       GetLatestOpsetVersions (make_schema_registry (Some local_registries))
         is_onnx_domain_only ≠ []) →
      constructed (Model_fresh graph_name is_onnx_domain_only model_metadata
                     local_registries domain_to_version model_functions)
  | constructed_decoded model_proto local_registries m :
      Model_from_proto model_proto local_registries = Return m →
      constructed m.

(** A descriptor's list covers the registry: every domain the registry
    reports is the canonical key of some entry. *)
Definition covers_registry (imports : list OperatorSetIdProto)
    (domain_map : list (string * Z)) : Prop :=
  Forall (λ d, ∃ e, e ∈ imports ∧ canonical_domain (domain e) = d.1) domain_map.

(** The load entry points that bind an output handle, each with its
    input. *)
Inductive load_entry :=
  | FromBytes (count : Z) (p_bytes : list Byte.byte)
  | FromProto (model_proto : ModelProto)
  | FromUniquePtr (p_model_proto : ModelProto)
  | FromFd (fd : Z)
  | FromPath (file_path : string).

Definition run_load (entry : load_entry)
    (local_registries : option (list IOnnxRuntimeOpSchemaCollection)) : M Status :=
  match entry with
  | FromBytes count p_bytes => Model_LoadFromBytes count p_bytes local_registries
  | FromProto model_proto => Model_Load_proto model_proto local_registries
  | FromUniquePtr p_model_proto => Model_Load_unique_ptr p_model_proto local_registries
  | FromFd fd => Model_Load_fd fd local_registries
  | FromPath file_path => Model_Load_path file_path local_registries
  end.

(** The descriptor a load on a file descriptor hands to the decode
    constructor, when it gets that far: the descriptor is not negative,
    the parse succeeded and the stream reports no error. *)
Definition descriptor_parsed_from_fd (fd : Z) : option ModelProto :=
  if bool_decide (fd < 0) then None
  else if (ParseFromFileInputStream fd).1.1
          && bool_decide ((ParseFromFileInputStream fd).2 = 0)
       then Some (ParseFromFileInputStream fd).1.2
       else None.

(** The descriptor a load entry point hands to the decode constructor,
    when it gets that far: the bytes parsed, the descriptor has a graph,
    the open did not fail with a [SYSTEM] status. *)
Definition descriptor_reached (entry : load_entry) : option ModelProto :=
  match entry with
  | FromBytes count p_bytes =>
      if (ParseFromArray p_bytes count).1
      then Some (ParseFromArray p_bytes count).2 else None
  | FromProto model_proto =>
      if has_graph model_proto then Some model_proto else None
  | FromUniquePtr p_model_proto =>
      if has_graph p_model_proto then Some p_model_proto else None
  | FromFd fd => descriptor_parsed_from_fd fd
  | FromPath file_path =>
      if negb (IsOK (FileOpenRd file_path).1)
         && bool_decide (Category (FileOpenRd file_path).1 = SYSTEM)
      then None
      else descriptor_parsed_from_fd (FileOpenRd file_path).2
  end.

(** What the byte, file-descriptor and path loads do once a descriptor
    was decoded: construct, bind the handle, resolve. *)
Definition construct_bind_resolve (mp : ModelProto)
    (regs : option (list IOnnxRuntimeOpSchemaCollection)) : M Status :=
  m ← new_Model (Some mp) regs;
  bind_handle m;;
  ORT_RETURN_IF_ERROR (MainGraph_Resolve m true) (mret Status_OK).

(** The outcome of a load that started with the handle at [h].  Either
    [Resolve] was not reached and the handle is as it was; or it was
    reached, the handle is bound to the model the constructor returned, as
    [Resolve] left it, and what the load returns is the status of
    [Resolve] or, that status being OK, the status of a file close. *)
Definition handle_rule (regs : option (list IOnnxRuntimeOpSchemaCollection))
    (h : option Model) (outcome : result Status * state) : Prop :=
  ((EvResolve true ∉ events outcome.2) ∧ p_model outcome.2 = h)
  ∨ ((EvResolve true ∈ events outcome.2)
     ∧ ∃ mp m, Model_from_proto (Some mp) regs = Return m
         ∧ p_model outcome.2 = Some (with_graph_ (Resolve (graph_ m) true).2 m)
         ∧ (outcome.1 = Return (Resolve (graph_ m) true).1
            ∨ (IsOK (Resolve (graph_ m) true).1 = true
               ∧ ∃ fd, outcome.1 = Return (FileClose fd)))).

(** The descriptors closed, in order. *)
Definition closes (es : list event) : list Z :=
  omap (λ e, match e with EvFileClose fd => Some fd | _ => None end) es.

(** The state once [file_path] was opened. *)
Definition opened_rd (file_path : string) (s : state) : state :=
  {| events := events s ++ [EvFileOpenRd file_path]; p_model := p_model s |}.

Definition opened_wr (file_path : string) (s : state) : state :=
  {| events := events s ++ [EvFileOpenWr file_path]; p_model := p_model s |}.

End Lifecycle.

(** ** Accessors and function registration *)

(** [Graph::AddFunction], given a pointer to a function, which model.cc
    only calls: the graph, the pointer (a position in the descriptor's function
    sequence) and the function it points to. *)
Class GraphFunctions `{Schema} := {
  Graph_AddFunction : Graph → nat → FunctionProto → Graph
}.

Section Accessors.
Context `{GraphFunctions}.

Definition with_model_proto_ (p : ModelProto) (m : Model) : Model :=
  {| model_proto_ := p; model_metadata_ := model_metadata_ m; graph_ := graph_ m |}.

Definition set_producer_name (x : string) (p : ModelProto) : ModelProto :=
  {| ir_version := ir_version p; producer_name := x;
     producer_version := producer_version p; model_domain := model_domain p;
     model_version := model_version p; doc_string := doc_string p;
     graph := graph p; opset_import := opset_import p;
     metadata_props := metadata_props p; functions := functions p |}.

Definition set_producer_version (x : string) (p : ModelProto) : ModelProto :=
  {| ir_version := ir_version p; producer_name := producer_name p;
     producer_version := x; model_domain := model_domain p;
     model_version := model_version p; doc_string := doc_string p;
     graph := graph p; opset_import := opset_import p;
     metadata_props := metadata_props p; functions := functions p |}.

Definition set_domain (x : string) (p : ModelProto) : ModelProto :=
  {| ir_version := ir_version p; producer_name := producer_name p;
     producer_version := producer_version p; model_domain := x;
     model_version := model_version p; doc_string := doc_string p;
     graph := graph p; opset_import := opset_import p;
     metadata_props := metadata_props p; functions := functions p |}.

Definition set_model_version (x : Z) (p : ModelProto) : ModelProto :=
  {| ir_version := ir_version p; producer_name := producer_name p;
     producer_version := producer_version p; model_domain := model_domain p;
     model_version := Some x; doc_string := doc_string p;
     graph := graph p; opset_import := opset_import p;
     metadata_props := metadata_props p; functions := functions p |}.

Definition set_doc_string (x : string) (p : ModelProto) : ModelProto :=
  {| ir_version := ir_version p; producer_name := producer_name p;
     producer_version := producer_version p; model_domain := model_domain p;
     model_version := model_version p; doc_string := x;
     graph := graph p; opset_import := opset_import p;
     metadata_props := metadata_props p; functions := functions p |}.

(** [add_functions()] followed by [CopyFrom]: the copy is the last
    element. *)
Definition add_functions (f : FunctionProto) (p : ModelProto) : ModelProto :=
  {| ir_version := ir_version p; producer_name := producer_name p;
     producer_version := producer_version p; model_domain := model_domain p;
     model_version := model_version p; doc_string := doc_string p;
     graph := graph p; opset_import := opset_import p;
     metadata_props := metadata_props p; functions := functions p ++ [f] |}.

(** [Model::IrVersion] on a model. *)
Definition Model_IrVersion (m : Model) : Z := IrVersion (model_proto_ m).

Definition ProducerName (m : Model) : string := producer_name (model_proto_ m).

Definition SetProducerName (producer_name : string) (m : Model) : Model :=
  with_model_proto_ (set_producer_name producer_name (model_proto_ m)) m.

Definition ProducerVersion (m : Model) : string := producer_version (model_proto_ m).

Definition SetProducerVersion (producer_version : string) (m : Model) : Model :=
  with_model_proto_ (set_producer_version producer_version (model_proto_ m)) m.

Definition Domain (m : Model) : string := model_domain (model_proto_ m).

Definition SetDomain (domain : string) (m : Model) : Model :=
  with_model_proto_ (set_domain domain (model_proto_ m)) m.

Definition ModelVersion (m : Model) : Z :=
  match model_version (model_proto_ m) with
  | Some v => v
  | None => kNoVersion
  end.

Definition SetModelversion (version : Z) (m : Model) : Model :=
  with_model_proto_ (set_model_version version (model_proto_ m)) m.

Definition DocString (m : Model) : string := doc_string (model_proto_ m).

Definition SetDocString (doc_string : string) (m : Model) : Model :=
  with_model_proto_ (set_doc_string doc_string (model_proto_ m)) m.

Definition MetaData (m : Model) : gmap string string := model_metadata_ m.

Definition MainGraph (m : Model) : Graph := graph_ m.

(** [Model::AddFunction]: the function is copied to the end of the
    descriptor's sequence and the graph is given the pointer to the
    copy. *)
Definition AddFunction (func_proto : FunctionProto) (m : Model) : Model :=
  let func_ptr := length (functions (model_proto_ m)) in
  {| model_proto_ := add_functions func_proto (model_proto_ m);
     model_metadata_ := model_metadata_ m;
     graph_ := Graph_AddFunction (graph_ m) func_ptr func_proto |}.

(** Every key of the table is the canonical key of an entry of the
    list. *)
Definition table_listed (acc : gmap string Z * list OperatorSetIdProto) : Prop :=
  ∀ k, is_Some (acc.1 !! k) → ∃ e, e ∈ acc.2 ∧ canonical_domain (domain e) = k.

(** The last entry of a list that satisfies a test. *)
Definition last_such {A} (P : A → Prop) `{∀ x, Decision (P x)} (l : list A) : option A :=
  last (filter P l).

(** A version that fits the 32-bit [int]. *)
Definition fits_int (v : Z) : Prop := - 2 ^ 31 ≤ v < 2 ^ 31.

End Accessors.

(** ** A small concrete world

    A registry that knows the default domain at version 11 and the
    domain ai.onnx.ml at version 2, graphs that are their names, a codec
    with a few canned descriptors, and a file system with a few files.
    The examples below run the model on it. *)

Module Fixture.

Definition register (mgr : list (string * Z)) (c : string * Z) : list (string * Z) :=
  if bool_decide (c.1 ∈ mgr.*1) then mgr else mgr ++ [c].

#[export] Instance schema : Schema := {|
  IOnnxRuntimeOpSchemaCollection := string * Z;
  SchemaRegistryManager := list (string * Z);
  new_SchemaRegistryManager := [(EmptyString, 11); ("ai.onnx.ml", 2)];
  RegisterRegistry := register;
  GetLatestOpsetVersions mgr is_onnx_domain_only :=
    if is_onnx_domain_only then filter (λ d, d.1 = EmptyString) mgr else mgr;
  GraphProto := string;
  GraphProto_default := EmptyString;
  set_name n _ := n;
  IR_VERSION := 4;
  kNoVersion := 2 ^ 63 - 1
|}.

Definition proto_with (g : option string) (imports : list OperatorSetIdProto) : ModelProto :=
  {| ir_version := Some 4; producer_name := "fixture";
     producer_version := "1"; model_domain := EmptyString;
     model_version := None; doc_string := EmptyString; graph := g;
     opset_import := imports; metadata_props := []; functions := [] |}.

(** a descriptor that loads *)
Definition sound_proto : ModelProto :=
  proto_with (Some "main") [mk_opset EmptyString 9].
(** a descriptor with a graph and no opset import *)
Definition no_opset_proto : ModelProto := proto_with (Some "main") [].
(** a descriptor without a graph *)
Definition no_graph_proto : ModelProto := proto_with None [mk_opset EmptyString 9].
(** a descriptor whose graph does not resolve *)
Definition cyclic_proto : ModelProto :=
  proto_with (Some "cyclic") [mk_opset EmptyString 9].
(** both spellings of the default domain, the alias last *)
Definition both_spellings_proto : ModelProto :=
  proto_with (Some "main") [mk_opset EmptyString 9; mk_opset "ai.onnx" 11].
(** every domain of the registry listed, the default one under its alias *)
Definition covering_proto : ModelProto :=
  proto_with (Some "main") [mk_opset "ai.onnx" 10; mk_opset "ai.onnx.ml" 1].

(** the first byte of a buffer selects the descriptor it decodes to *)
Definition decode (bytes : list Byte.byte) : bool * ModelProto :=
  match bytes with
  | Byte.x01 :: _ => (true, sound_proto)
  | Byte.x02 :: _ => (true, no_opset_proto)
  | Byte.x03 :: _ => (true, cyclic_proto)
  | Byte.x04 :: _ => (true, no_graph_proto)
  | _ => (false, ModelProto_default)
  end.

(** the content of the file behind each descriptor *)
Definition file_content (fd : Z) : list Byte.byte :=
  if bool_decide (fd = 3) then [Byte.x01]
  else if bool_decide (fd = 4) then [Byte.x02]
  else if bool_decide (fd = 5) then [Byte.x03]
  else [].

Definition open_rd (file_path : string) : Status * Z :=
  if bool_decide (file_path = "model.onnx") then (Status_OK, 3)
  else if bool_decide (file_path = "noopset.onnx") then (Status_OK, 4)
  else if bool_decide (file_path = "cyclic.onnx") then (Status_OK, 5)
  else if bool_decide (file_path = "garbage.onnx") then (Status_OK, 6)
  else if bool_decide (file_path = EmptyString) then (Status_error SYSTEM 22 EmptyString, -1)
  else if bool_decide (file_path = "/root/secret.onnx") then (Status_error SYSTEM 13 EmptyString, -1)
  else if bool_decide (file_path = "remote://model.onnx") then
    (Status_error ONNXRUNTIME 9 "path scheme not supported", -1)
  else (Status_error SYSTEM 2 EmptyString, -1).

#[export] Instance engine : Engine := {|
  FAIL := 1;
  INVALID_ARGUMENT := 2;
  NO_SUCHFILE := 3;
  INVALID_PROTOBUF := 7;
  ENOENT := 2;
  EINVAL := 22;
  Resolve g full :=
    if bool_decide (graph_proto g = "cyclic")
    then (Status_error ONNXRUNTIME 10 "graph has a cycle", g)
    else (Status_OK, g);
  ToGraphProto g := graph_proto g;
  ParseFromArray p_bytes count := decode p_bytes;
  ParseFromFileInputStream fd := (decode (file_content fd), 0);
  istream := list Byte.byte * bool;
  good s := s.2;
  eof s := bool_decide (s.1 = []);
  ParseFromIstream s := (decode s.1, ([], s.2));
  SerializeToZeroCopyStream p fd := true;
  Flush p fd := true;
  FileOpenRd := open_rd;
  FileOpenWr file_path := (Status_OK, 7);
  FileClose fd := Status_OK
|}.

#[export] Instance graph_functions : GraphFunctions := {|
  Graph_AddFunction g func_ptr f :=
    mk_graph (graph_proto g) (graph_domain_to_version g) (graph_ir_version g)
      (graph_schema_registry g) (<[name f := func_ptr]> (graph_model_functions g))
|}.

End Fixture.

(** More of the concrete world: a descriptor with metadata, a registry
    source that reports the alias as a domain, and a platform on which
    no file can be opened for writing. *)

Module FixtureMore.
Import Fixture.

Definition annotated_proto : ModelProto :=
  {| ir_version := None; producer_name := "fixture";
     producer_version := "1"; model_domain := EmptyString;
     model_version := None; doc_string := EmptyString; graph := Some "main";
     opset_import := [mk_opset "ai.onnx" 5; mk_opset "com.example" (2 ^ 32 + 3)];
     metadata_props := [mk_prop "author" "ada"; mk_prop "licence" "MIT";
                        mk_prop "author" "grace"];
     functions := [] |}.

Definition alias_source : list (string * Z) := [("ai.onnx", 11)].

Definition relu : FunctionProto := mk_function "Relu" ["max(x, 0)"].

Definition engine_read_only : Engine := {|
  FAIL := 1;
  INVALID_ARGUMENT := 2;
  NO_SUCHFILE := 3;
  INVALID_PROTOBUF := 7;
  ENOENT := 2;
  EINVAL := 22;
  Resolve := @Resolve schema engine;
  ToGraphProto := @ToGraphProto schema engine;
  ParseFromArray := @ParseFromArray schema engine;
  ParseFromFileInputStream := @ParseFromFileInputStream schema engine;
  istream := list Byte.byte * bool;
  good s := s.2;
  eof s := bool_decide (s.1 = []);
  ParseFromIstream s := (decode s.1, ([], s.2));
  SerializeToZeroCopyStream p fd := true;
  Flush p fd := true;
  FileOpenRd := open_rd;
  FileOpenWr file_path := (Status_error SYSTEM 30 EmptyString, -1);
  FileClose fd := Status_OK
|}.

End FixtureMore.

(** * Properties of the negotiation *)

Section NegotiationFacts.
Context `{Schema}.

Lemma record_opset_insert (t : gmap string Z) (e : OperatorSetIdProto) :
  record_opset t e = <[canonical_domain (domain e) := narrow_cast_int (version e)]> t.
Proof. unfold record_opset, canonical_domain. by case_decide. Qed.

Lemma fold_record_opset_snoc (t : gmap string Z) l e :
  fold_left record_opset (l ++ [e]) t = record_opset (fold_left record_opset l t) e.
Proof. by rewrite fold_left_app. Qed.

(** Imports recorded under other keys leave a key alone. *)
Lemma fold_record_opset_other (k : string) l (t : gmap string Z) :
  Forall (λ e, canonical_domain (domain e) ≠ k) l →
  fold_left record_opset l t !! k = t !! k.
Proof.
  intros Hl. revert t. induction Hl as [|e l He _ IH]; intros t; [done|].
  simpl. rewrite IH, record_opset_insert. by rewrite lookup_insert_ne.
Qed.

(** The keys of the table: those it had, and the canonical keys of the
    imports. *)
Lemma fold_record_opset_is_Some (k : string) l (t : gmap string Z) :
  is_Some (fold_left record_opset l t !! k) ↔
  is_Some (t !! k) ∨ ∃ e, e ∈ l ∧ canonical_domain (domain e) = k.
Proof.
  revert t. induction l as [|e l IH]; intros t; simpl.
  - split; [by left|]. intros [?|(e & He & _)]; [done|]. by apply elem_of_nil in He.
  - rewrite IH, record_opset_insert. split.
    + intros [Hin|(e' & He' & Hk)].
      * destruct (decide (canonical_domain (domain e) = k)) as [Heq|Hne].
        -- right. exists e. split; [apply list_elem_of_here|done].
        -- left. by rewrite lookup_insert_ne in Hin.
      * right. exists e'. split; [by apply list_elem_of_further|done].
    + intros [Hin|(e' & He' & Hk)].
      * left. destruct (decide (canonical_domain (domain e) = k)) as [Heq|Hne].
        -- subst k. rewrite lookup_insert_eq. by eexists.
        -- by rewrite lookup_insert_ne.
      * apply elem_of_cons in He' as [->|He'].
        -- left. subst k. rewrite lookup_insert_eq. by eexists.
        -- right. by exists e'.
Qed.

Lemma explicit_table_is_Some (k : string) l :
  is_Some (explicit_table l !! k) ↔ ∃ e, e ∈ l ∧ canonical_domain (domain e) = k.
Proof.
  unfold explicit_table. rewrite fold_record_opset_is_Some, lookup_empty.
  split; [intros [[? ?]|?]; done | by right].
Qed.


(** *** The default-fill loop *)

(** The table after the loop: what it held, and below it the registry's
    latest versions. *)
Lemma fill_defaults_table (domain_map : list (string * Z)) (t : gmap string Z) l :
  (fill_defaults domain_map (t, l)).1 = t ∪ list_to_map domain_map.
Proof.
  revert t l. induction domain_map as [|[d v] dm IH]; intros t l.
  - simpl. by rewrite (right_id_L ∅ (∪)).
  - unfold fill_defaults in *. cbn [fold_left list_to_map foldr].
    unfold fill_default at 2. cbn [fst snd].
    destruct (t !! d) as [w|] eqn:Hd.
    + rewrite IH. apply map_eq. intros k. rewrite !lookup_union.
      destruct (decide (k = d)) as [->|Hne].
      * rewrite Hd, lookup_insert_eq. by destruct (list_to_map dm !! d).
      * by rewrite lookup_insert_ne.
    + rewrite IH. rewrite <- insert_union_l. by rewrite insert_union_r.
Qed.

(** A table that already has every registry domain is a fixed point of
    the loop, and so is the list. *)
Lemma fill_defaults_covered (domain_map : list (string * Z)) (t : gmap string Z) l :
  Forall (λ d, is_Some (t !! d.1)) domain_map →
  fill_defaults domain_map (t, l) = (t, l).
Proof.
  induction 1 as [|d dm [w Hd] _ IH]; [done|].
  unfold fill_defaults in *. cbn [fold_left]. unfold fill_default at 2.
  cbn [fst snd]. by rewrite Hd.
Qed.

Lemma filter_absent_insert (d : string) (v : Z) (t : gmap string Z)
    (dm : list (string * Z)) :
  d ∉ dm.*1 →
  filter (λ d', <[d:=v]> t !! d'.1 = None) dm = filter (λ d', t !! d'.1 = None) dm.
Proof.
  induction dm as [|[d' v'] dm IH]; intros Hd; [done|].
  rewrite fmap_cons, not_elem_of_cons in Hd. destruct Hd as [Hne Hd].
  rewrite !filter_cons. cbn [fst] in *.
  rewrite lookup_insert_ne by done. by rewrite IH.
Qed.

(** The list after the loop: the list before, then one entry per registry
    domain the table lacked. *)
Lemma fill_defaults_list (domain_map : list (string * Z)) (t : gmap string Z) l :
  NoDup domain_map.*1 →
  (fill_defaults domain_map (t, l)).2 = l ++ missing_defaults domain_map t.
Proof.
  unfold missing_defaults.
  revert t l. induction domain_map as [|[d v] dm IH]; intros t l Hnd.
  - simpl. by rewrite app_nil_r.
  - rewrite fmap_cons, NoDup_cons in Hnd. destruct Hnd as [Hd Hnd].
    unfold fill_defaults in *. cbn [fold_left]. unfold fill_default at 2.
    cbn [fst snd]. rewrite filter_cons. cbn [fst].
    destruct (t !! d) as [w|] eqn:Htd.
    + rewrite decide_False by done. by apply IH.
    + rewrite decide_True by done. rewrite IH by done.
      rewrite filter_absent_insert by done.
      by rewrite fmap_cons, <- app_assoc.
Qed.

(** What the decode constructor returns on a descriptor that passes its
    checks. *)
Lemma Model_from_proto_checked (mp : ModelProto) regs :
  has_graph mp = true → opset_import mp ≠ [] →
  Model_from_proto (Some mp) regs = Return (Model_from_checked_proto mp regs).
Proof.
  intros Hg Hl. unfold Model_from_proto. rewrite Hg. cbn [negb].
  rewrite bool_decide_false; [done|].
  unfold opset_import_size. by destruct (opset_import mp).
Qed.

Lemma Model_from_proto_Return_inv (mp : option ModelProto) regs m :
  Model_from_proto mp regs = Return m →
  ∃ p, mp = Some p ∧ has_graph p = true ∧ opset_import p ≠ []
       ∧ m = Model_from_checked_proto p regs.
Proof.
  unfold Model_from_proto. destruct mp as [p|]; [|done].
  destruct (has_graph p) eqn:Hg; cbn [negb]; [|done].
  case_bool_decide as Hz; [done|]. intros [= <-].
  exists p. repeat split; try done. intros Hnil.
  apply Hz. unfold opset_import_size. by rewrite Hnil.
Qed.


(** Without the hypothesis on the registry: the list only grows, and
    only by entries for domains the table lacked. *)
Lemma fill_defaults_grows (domain_map : list (string * Z)) (t : gmap string Z) l :
  ∃ added, (fill_defaults domain_map (t, l)).2 = l ++ added
           ∧ Forall (λ e, t !! domain e = None) added.
Proof.
  revert t l. induction domain_map as [|[d v] dm IH]; intros t l.
  - exists []. by rewrite app_nil_r.
  - unfold fill_defaults in *. cbn [fold_left]. unfold fill_default at 2.
    cbn [fst snd]. destruct (t !! d) as [w|] eqn:Htd; [apply IH|].
    destruct (IH (<[d:=v]> t) (l ++ [mk_opset d v])) as (added & Heq & Hadded).
    exists (mk_opset d v :: added). split.
    + by rewrite Heq, <- app_assoc.
    + constructor; [done|].
      eapply Forall_impl; [exact Hadded|]. intros e He.
      by apply lookup_insert_None in He as [? _].
Qed.

Lemma filter_none {A} (P : A → Prop) `{∀ x, Decision (P x)} (l : list A) :
  Forall (λ x, ¬ P x) l → filter P l = [].
Proof. induction 1; [done|]. by rewrite filter_cons_False. Qed.

(** The entries of a map under one key: there is exactly one. *)
Lemma filter_key_map_to_list (m : gmap string Z) (k : string) (v : Z) :
  m !! k = Some v →
  filter (λ kv : string * Z, kv.1 = k) (map_to_list m) = [(k, v)].
Proof.
  intros Hk. apply Permutation_singleton_r.
  rewrite <- (map_to_list_delete m k v Hk), filter_cons. cbn [fst].
  rewrite decide_True by done. rewrite filter_none; [done|].
  apply Forall_forall. intros [k' v'] Hin%elem_of_map_to_list Heq.
  cbn [fst] in Heq. subst k'. by rewrite lookup_delete_eq in Hin.
Qed.

End NegotiationFacts.

Section ConstructorClaims.
Context `{Engine}.

Lemma canonical_domain_not_default (d : string) :
  d ≠ kOnnxDomain → d ≠ kOnnxDomainAlias → canonical_domain d ≠ kOnnxDomain.
Proof. intros ? ?. unfold canonical_domain. by rewrite decide_False. Qed.

(** C3.  A descriptor with a graph lists the canonical default-domain key
    at version 9 and, later in the list, the alias spelling at version
    11, and no entry for the default domain follows the alias entry.
    Then the decode constructor succeeds, and the table it hands to the
    graph has, under the canonical key, one entry, and its version is
    11. *)
Theorem alias_entry_later_wins (mp : ModelProto)
    (regs : option (list IOnnxRuntimeOpSchemaCollection))
    (pre mid post : list OperatorSetIdProto) :
  has_graph mp = true →
  opset_import mp =
    pre ++ mk_opset kOnnxDomain 9 :: mid ++ mk_opset kOnnxDomainAlias 11 :: post →
  Forall (λ e, domain e ≠ kOnnxDomain ∧ domain e ≠ kOnnxDomainAlias) post →
  ∃ m, Model_from_proto (Some mp) regs = Return m
       ∧ graph_domain_to_version (graph_ m) !! kOnnxDomain = Some 11
       ∧ filter (λ kv : string * Z, kv.1 = kOnnxDomain)
           (map_to_list (graph_domain_to_version (graph_ m)))
         = [(kOnnxDomain, 11)].
Proof.
  intros Hg Hl Hpost.
  exists (Model_from_checked_proto mp regs).
  assert (Htable : explicit_table (opset_import mp) !! kOnnxDomain = Some 11).
  { rewrite Hl. unfold explicit_table.
    rewrite app_comm_cons, app_assoc, fold_left_app. cbn [fold_left].
    rewrite fold_record_opset_other.
    - rewrite record_opset_insert. cbn [domain version].
      unfold canonical_domain. rewrite decide_True by done.
      by rewrite lookup_insert_eq.
    - eapply Forall_impl; [exact Hpost|]. intros e [? ?].
      by apply canonical_domain_not_default. }
  assert (Hfinal :
    graph_domain_to_version (graph_ (Model_from_checked_proto mp regs))
      !! kOnnxDomain = Some 11).
  { unfold Model_from_checked_proto. cbn [graph_ graph_domain_to_version].
    rewrite fill_defaults_table. by apply lookup_union_Some_l. }
  split; [|split; [done|by apply filter_key_map_to_list]].
  apply Model_from_proto_checked; [done|]. rewrite Hl. by destruct pre.
Qed.

(** C4.  On a descriptor that passes the checks of the decode
    constructor, with a registry map of distinct domains: every registry
    domain absent from the table of the explicit imports is in the final
    table at the registry's version, and an entry for it is in the stored
    list; every entry of the explicit table is in the final table
    unchanged, and nothing else is; the stored list is the descriptor's
    list followed by one entry per added domain. *)
Theorem default_fill_adds_missing (mp : ModelProto)
    (regs : option (list IOnnxRuntimeOpSchemaCollection)) :
  let latest := GetLatestOpsetVersions (make_schema_registry regs) false in
  let table := explicit_table (opset_import mp) in
  has_graph mp = true → opset_import mp ≠ [] → NoDup latest.*1 →
  ∃ m, Model_from_proto (Some mp) regs = Return m
    ∧ (∀ d v, (d, v) ∈ latest → table !! d = None →
         graph_domain_to_version (graph_ m) !! d = Some v
         ∧ mk_opset d v ∈ opset_import (model_proto_ m))
    ∧ (∀ d v, table !! d = Some v →
         graph_domain_to_version (graph_ m) !! d = Some v)
    ∧ (∀ d, table !! d = None → d ∉ latest.*1 →
         graph_domain_to_version (graph_ m) !! d = None)
    ∧ opset_import (model_proto_ m)
      = opset_import mp ++ missing_defaults latest table.
Proof.
  intros latest table Hg Hl Hnd.
  exists (Model_from_checked_proto mp regs).
  split; [by apply Model_from_proto_checked|].
  unfold Model_from_checked_proto.
  cbn [graph_ graph_domain_to_version model_proto_ opset_import with_opset_import].
  fold latest table. rewrite fill_defaults_table, fill_defaults_list by done.
  repeat split.
  - rewrite lookup_union_r by done. by apply elem_of_list_to_map_1.
  - apply elem_of_app. right. unfold missing_defaults.
    apply (list_elem_of_fmap_2' _ _ (d, v)); [|done].
    by apply list_elem_of_filter.
  - intros d v Hd. by apply lookup_union_Some_l.
  - intros d Hd Hnot. apply lookup_union_None_2; [done|].
    by apply not_elem_of_list_to_map_1.
Qed.

(** C5.  The descriptor owned by a constructed model, fresh or decoded,
    has at least one opset import. *)
Theorem opset_import_nonempty (m : Model) :
  constructed m → opset_import (model_proto_ m) ≠ [].
Proof.
  intros Hm. inversion Hm as [name only md regs d2v fns Hreg|mp regs m' Hdec]; subst.
  - unfold Model_fresh. cbn [model_proto_ opset_import].
    case_bool_decide as Hd.
    + specialize (Hreg Hd).
      by destruct (GetLatestOpsetVersions _ _).
    + by destruct d2v.
  - apply Model_from_proto_Return_inv in Hdec as (p & -> & Hg & Hl & ->).
    unfold Model_from_checked_proto. cbn [model_proto_ opset_import with_opset_import].
    destruct (fill_defaults_grows
                (GetLatestOpsetVersions (make_schema_registry regs) false)
                (explicit_table (opset_import p)) (opset_import p))
      as (added & -> & _).
    by destruct (opset_import p).
Qed.

Lemma covers_registry_fixed (l : list OperatorSetIdProto) (dm : list (string * Z)) :
  covers_registry l dm →
  fill_defaults dm (explicit_table l, l) = (explicit_table l, l).
Proof.
  intros Hc. apply fill_defaults_covered.
  eapply Forall_impl; [exact Hc|]. intros d Hd. by apply explicit_table_is_Some.
Qed.

Lemma ToProto_decoded_covered (q : ModelProto)
    (regs : option (list IOnnxRuntimeOpSchemaCollection)) :
  covers_registry (opset_import q)
    (GetLatestOpsetVersions (make_schema_registry regs) false) →
  opset_import (ToProto (Model_from_checked_proto q regs)).1 = opset_import q.
Proof.
  intros Hc. unfold ToProto, Model_from_checked_proto.
  cbn [fst model_proto_ opset_import with_graph with_opset_import].
  by rewrite covers_registry_fixed.
Qed.

(** C6.  A descriptor that passes the checks of the decode constructor
    and whose list covers every domain the registry reports, the alias
    counting as the default domain: decoding it and taking [ToProto]
    gives a descriptor with the same list, and decoding that descriptor
    and taking [ToProto] once more gives the same list again. *)
Theorem default_fill_round_trip (mp : ModelProto)
    (regs : option (list IOnnxRuntimeOpSchemaCollection)) :
  has_graph mp = true → opset_import mp ≠ [] →
  covers_registry (opset_import mp)
    (GetLatestOpsetVersions (make_schema_registry regs) false) →
  ∃ m m', Model_from_proto (Some mp) regs = Return m
    ∧ opset_import (ToProto m).1 = opset_import mp
    ∧ Model_from_proto (Some (ToProto m).1) regs = Return m'
    ∧ opset_import (ToProto m').1 = opset_import (ToProto m).1.
Proof.
  intros Hg Hl Hc.
  pose proof (ToProto_decoded_covered mp regs Hc) as Hfirst.
  exists (Model_from_checked_proto mp regs),
         (Model_from_checked_proto (ToProto (Model_from_checked_proto mp regs)).1 regs).
  split; [by apply Model_from_proto_checked|]. split; [done|]. split.
  - apply Model_from_proto_checked; [done|]. by rewrite Hfirst.
  - apply ToProto_decoded_covered. by rewrite Hfirst.
Qed.

(** C10.  An entry of the descriptor spelled with the alias domain: the
    decode constructor succeeds, the entry is at its place, with the
    alias spelling and its version, in the list the model stores and in
    the list [ToProto] returns; the table has the canonical key; and no
    entry under the canonical key is in the returned list that the
    descriptor did not have. *)
Theorem alias_spelling_kept (mp : ModelProto)
    (regs : option (list IOnnxRuntimeOpSchemaCollection))
    (i : nat) (e : OperatorSetIdProto) :
  has_graph mp = true → opset_import mp !! i = Some e →
  domain e = kOnnxDomainAlias →
  ∃ m, Model_from_proto (Some mp) regs = Return m
    ∧ opset_import (model_proto_ m) !! i = Some e
    ∧ opset_import (ToProto m).1 !! i = Some e
    ∧ graph_domain_to_version (graph_ m) !! kOnnxDomain
      = explicit_table (opset_import mp) !! kOnnxDomain
    ∧ is_Some (explicit_table (opset_import mp) !! kOnnxDomain)
    ∧ (∀ e', e' ∈ opset_import (ToProto m).1 → domain e' = kOnnxDomain →
         e' ∈ opset_import mp).
Proof.
  intros Hg Hi He.
  assert (Hcanon : is_Some (explicit_table (opset_import mp) !! kOnnxDomain)).
  { apply explicit_table_is_Some. exists e. split.
    - by eapply list_elem_of_lookup_2.
    - unfold canonical_domain. by rewrite decide_True. }
  exists (Model_from_checked_proto mp regs).
  split.
  { apply Model_from_proto_checked; [done|]. intros Hnil. by rewrite Hnil in Hi. }
  unfold ToProto, Model_from_checked_proto.
  cbn [fst model_proto_ opset_import with_graph with_opset_import graph_
       graph_domain_to_version].
  rewrite fill_defaults_table.
  destruct (fill_defaults_grows
              (GetLatestOpsetVersions (make_schema_registry regs) false)
              (explicit_table (opset_import mp)) (opset_import mp))
    as (added & -> & Hadded).
  repeat split; try done.
  - by apply lookup_app_l_Some.
  - by apply lookup_app_l_Some.
  - by apply lookup_union_l'.
  - intros e' [Hin|Hin]%elem_of_app Hd; [done|].
    rewrite Forall_forall in Hadded. specialize (Hadded e' Hin).
    rewrite Hd in Hadded. rewrite Hadded in Hcanon. by destruct Hcanon.
Qed.

End ConstructorClaims.

(** * Properties of load and save *)

Section LifecycleFacts.
Context `{Engine}.

Ltac run_M :=
  unfold ORT_RETURN_IF_ERROR, MainGraph_Resolve, Resolve_model, new_Model,
    Env_FileOpenRd, Env_FileOpenWr, Env_FileClose, bind_handle, emit_all, emit,
    try_catch, throw, mbind, M_bind, mret, M_ret;
  cbn [events p_model fst snd].

Lemma construct_bind_resolve_run (mp : ModelProto) regs (s : state) :
  construct_bind_resolve mp regs s =
  match Model_from_proto (Some mp) regs with
  | Throw ex =>
      (Throw ex, {| events := events s ++ [EvNewModel]; p_model := p_model s |})
  | Return m =>
      (Return (Resolve (graph_ m) true).1,
       {| events := ((events s ++ [EvNewModel])
                       ++ (EvWarning <$> Model_from_proto_warnings mp))
                      ++ [EvResolve true];
          p_model := Some (with_graph_ (Resolve (graph_ m) true).2 m) |})
  end.
Proof.
  unfold construct_bind_resolve. run_M.
  destruct (Model_from_proto (Some mp) regs) as [m|ex]; [|done].
  cbn [from_option events p_model].
  destruct (Resolve (graph_ m) true) as [st g]. cbn [fst snd].
  by destruct st.
Qed.


(** The descriptor overloads catch the constructor's exception. *)
Lemma construct_and_resolve_run (mp : ModelProto) regs (s : state) :
  construct_and_resolve mp regs s =
  match Model_from_proto (Some mp) regs with
  | Throw ex =>
      (Return (Status_error ONNXRUNTIME INVALID_ARGUMENT
                 ("Failed to load model with error: " +:+ ex)),
       {| events := events s ++ [EvNewModel]; p_model := p_model s |})
  | Return m =>
      (Return (Resolve (graph_ m) true).1,
       {| events := ((events s ++ [EvNewModel])
                       ++ (EvWarning <$> Model_from_proto_warnings mp))
                      ++ [EvResolve true];
          p_model := Some (with_graph_ (Resolve (graph_ m) true).2 m) |})
  end.
Proof.
  unfold construct_and_resolve. run_M.
  destruct (Model_from_proto (Some mp) regs) as [m|ex]; [|done].
  cbn [from_option events p_model].
  destruct (Resolve (graph_ m) true) as [st g]. cbn [fst snd].
  by destruct st.
Qed.

Lemma Model_LoadFromBytes_run count p_bytes regs (s : state) :
  Model_LoadFromBytes count p_bytes regs s =
  let s1 := {| events := events s ++ [EvParseFromArray]; p_model := p_model s |} in
  if (ParseFromArray p_bytes count).1
  then construct_bind_resolve (ParseFromArray p_bytes count).2 regs s1
  else (Return (Status_error ONNXRUNTIME INVALID_PROTOBUF "Protobuf parsing failed."), s1).
Proof.
  unfold Model_LoadFromBytes, construct_bind_resolve. run_M.
  by destruct (ParseFromArray p_bytes count).1.
Qed.

Lemma Model_Load_fd_run fd regs (s : state) :
  Model_Load_fd fd regs s =
  if bool_decide (fd < 0) then
    (Return (Status_error ONNXRUNTIME INVALID_ARGUMENT "<p_fd> less than 0."), s)
  else
    let s1 := {| events := events s ++ [EvParseFromFd fd]; p_model := p_model s |} in
    if (ParseFromFileInputStream fd).1.1
       && bool_decide ((ParseFromFileInputStream fd).2 = 0)
    then construct_bind_resolve (ParseFromFileInputStream fd).1.2 regs s1
    else (Return (Status_error ONNXRUNTIME INVALID_PROTOBUF "Protobuf parsing failed."), s1).
Proof.
  unfold Model_Load_fd, construct_bind_resolve. run_M.
  case_bool_decide; [done|].
  by destruct ((ParseFromFileInputStream fd).1.1 && _).
Qed.

(** [LoadModel] past the open: the status of the load, or of the close
    when the load was well; one close at the end in every case. *)
Lemma LoadModel_run file_path regs (s : state) :
  LoadModel file_path regs s =
  let status := (FileOpenRd file_path).1 in
  let fd := (FileOpenRd file_path).2 in
  if negb (IsOK status) && bool_decide (Category status = SYSTEM) then
    (Return (open_failure_status file_path (Code status)), opened_rd file_path s)
  else
    let inner := Model_Load_fd fd regs (opened_rd file_path s) in
    (Return match inner.1 with
            | Throw ex => Status_error ONNXRUNTIME FAIL ex
            | Return status => if IsOK status then FileClose fd else status
            end,
     {| events := events inner.2 ++ [EvFileClose fd]; p_model := p_model inner.2 |}).
Proof.
  unfold LoadModel. run_M. fold (opened_rd file_path s).
  destruct (negb _ && _); [done|]. cbn zeta.
  destruct (Model_Load_fd _ regs (opened_rd file_path s)) as [[st|ex] s1];
    cbn [fst snd]; [|done].
  by destruct (IsOK st).
Qed.

Lemma SaveModel_run model file_path (s : state) :
  SaveModel model file_path s =
  let status := (FileOpenWr file_path).1 in
  let fd := (FileOpenWr file_path).2 in
  if negb (IsOK status) then (Return (status, model), opened_wr file_path s)
  else
    let inner := Model_Save_fd model fd (opened_wr file_path s) in
    (Return match inner.1 with
            | Throw ex => (Status_error ONNXRUNTIME FAIL ex, model)
            | Return saved =>
                (if IsOK saved.1 then FileClose fd else saved.1, saved.2)
            end,
     {| events := events inner.2 ++ [EvFileClose fd]; p_model := p_model inner.2 |}).
Proof.
  unfold SaveModel. run_M. fold (opened_wr file_path s).
  destruct (negb _); [done|]. cbn zeta.
  destruct (Model_Save_fd model _ (opened_wr file_path s)) as [[[st m]|ex] s1];
    cbn [fst snd]; [|done].
  by destruct (IsOK st).
Qed.


(** *** Which events close a file *)

Lemma closes_app (es1 es2 : list event) : closes (es1 ++ es2) = closes es1 ++ closes es2.
Proof. apply omap_app. Qed.

Lemma closes_warnings (ws : list Z) : closes (EvWarning <$> ws) = [].
Proof. induction ws as [|w ws IH]; [done|]. by rewrite fmap_cons. Qed.

Lemma construct_bind_resolve_closes (mp : ModelProto) regs (s : state) :
  closes (events (construct_bind_resolve mp regs s).2) = closes (events s).
Proof.
  rewrite construct_bind_resolve_run.
  destruct (Model_from_proto (Some mp) regs) as [m|ex]; cbn [snd events];
    rewrite !closes_app, ?closes_warnings; cbn; by rewrite ?app_nil_r.
Qed.

Lemma Model_Load_fd_closes fd regs (s : state) :
  closes (events (Model_Load_fd fd regs s).2) = closes (events s).
Proof.
  rewrite Model_Load_fd_run. case_bool_decide; [done|]. cbn zeta.
  destruct (_ && _).
  - rewrite construct_bind_resolve_closes. cbn [events].
    rewrite closes_app. cbn. by rewrite app_nil_r.
  - cbn [snd events]. rewrite closes_app. cbn. by rewrite app_nil_r.
Qed.

Lemma Model_Save_fd_closes model p_fd (s : state) :
  closes (events (Model_Save_fd model p_fd s).2) = closes (events s).
Proof.
  unfold Model_Save_fd. case_bool_decide; [done|]. run_M.
  destruct (IsOK (Resolve (graph_ model) false).1); cbn [negb snd events].
  - destruct (SerializeToZeroCopyStream _ _ && Flush _ _); cbn [snd events];
      rewrite !closes_app; cbn; by rewrite !app_nil_r.
  - rewrite closes_app. cbn. by rewrite app_nil_r.
Qed.

(** *** The output handle *)

Lemma handle_rule_unreached regs (r : result Status) (s : state) :
  EvResolve true ∉ events s → handle_rule regs (p_model s) (r, s).
Proof. intros Hs. by left. Qed.

Lemma not_resolve_snoc (es : list event) (e : event) :
  e ≠ EvResolve true → EvResolve true ∉ es → EvResolve true ∉ es ++ [e].
Proof.
  intros He Hes. rewrite elem_of_app, list_elem_of_singleton. by intros [?|<-].
Qed.

Lemma construct_bind_resolve_handle (mp : ModelProto) regs (s : state) :
  EvResolve true ∉ events s →
  handle_rule regs (p_model s) (construct_bind_resolve mp regs s).
Proof.
  intros Hs. rewrite construct_bind_resolve_run.
  destruct (Model_from_proto (Some mp) regs) as [m|ex] eqn:Hm.
  - right. cbn [fst snd events p_model]. split.
    + apply elem_of_app. right. apply list_elem_of_here.
    + exists mp, m. split; [done|]. split; [done|]. by left.
  - left. cbn [snd events p_model]. split; [|done]. by apply not_resolve_snoc.
Qed.

Lemma construct_and_resolve_handle (mp : ModelProto) regs (s : state) :
  EvResolve true ∉ events s →
  handle_rule regs (p_model s) (construct_and_resolve mp regs s).
Proof.
  intros Hs. rewrite construct_and_resolve_run.
  destruct (Model_from_proto (Some mp) regs) as [m|ex] eqn:Hm.
  - right. cbn [fst snd events p_model]. split.
    + apply elem_of_app. right. apply list_elem_of_here.
    + exists mp, m. split; [done|]. split; [done|]. by left.
  - left. cbn [snd events p_model]. split; [|done]. by apply not_resolve_snoc.
Qed.

Lemma Model_Load_fd_handle fd regs (s : state) :
  EvResolve true ∉ events s →
  handle_rule regs (p_model s) (Model_Load_fd fd regs s).
Proof.
  intros Hs. rewrite Model_Load_fd_run.
  case_bool_decide; [by apply handle_rule_unreached|]. cbn zeta.
  destruct (_ && _).
  - apply (construct_bind_resolve_handle _ regs
             {| events := events s ++ [EvParseFromFd fd]; p_model := p_model s |}).
    by apply not_resolve_snoc.
  - apply (handle_rule_unreached regs _
             {| events := events s ++ [EvParseFromFd fd]; p_model := p_model s |}).
    by apply not_resolve_snoc.
Qed.

(** What [LoadModel] makes of the load on the descriptor: the rule goes
    through the close. *)
Lemma handle_rule_close regs h (inner : result Status * state) (fd : Z) :
  handle_rule regs h inner →
  handle_rule regs h
    (Return match inner.1 with
            | Throw ex => Status_error ONNXRUNTIME FAIL ex
            | Return status => if IsOK status then FileClose fd else status
            end,
     {| events := events inner.2 ++ [EvFileClose fd]; p_model := p_model inner.2 |}).
Proof.
  intros [[Hno Hh]|(Hyes & mp & m & Hm & Hp & Hst)]; [left|right];
    cbn [fst snd events p_model].
  - split; [|done]. by apply not_resolve_snoc.
  - split; [apply elem_of_app; by left|].
    exists mp, m. split; [done|]. split; [done|].
    destruct Hst as [->|(Hok & fd' & ->)].
    + destruct (IsOK (Resolve (graph_ m) true).1) eqn:Hok; [right|by left].
      split; [done|]. by exists fd.
    + right. split; [done|]. destruct (IsOK (FileClose fd')); by eexists.
Qed.

(** Every load, whatever it returns. *)
Lemma run_load_handle (entry : load_entry) regs (s : state) :
  EvResolve true ∉ events s →
  handle_rule regs (p_model s) (run_load entry regs s).
Proof.
  intros Hs. destruct entry as [count p_bytes|mp|mp|fd|file_path]; cbn [run_load].
  - rewrite Model_LoadFromBytes_run. cbn zeta.
    destruct (ParseFromArray p_bytes count).1.
    + apply (construct_bind_resolve_handle _ regs
               {| events := events s ++ [EvParseFromArray]; p_model := p_model s |}).
      by apply not_resolve_snoc.
    + apply (handle_rule_unreached regs _
               {| events := events s ++ [EvParseFromArray]; p_model := p_model s |}).
      by apply not_resolve_snoc.
  - unfold Model_Load_proto. destruct (negb (has_graph mp)).
    + by apply handle_rule_unreached.
    + by apply construct_and_resolve_handle.
  - unfold Model_Load_unique_ptr. destruct (negb (has_graph mp)).
    + by apply handle_rule_unreached.
    + by apply construct_and_resolve_handle.
  - by apply Model_Load_fd_handle.
  - unfold Model_Load_path. rewrite LoadModel_run. cbn zeta.
    assert (Hopen : EvResolve true ∉ events (opened_rd file_path s))
      by by apply not_resolve_snoc.
    destruct (negb _ && _).
    + by apply (handle_rule_unreached regs _ (opened_rd file_path s)).
    + apply handle_rule_close.
      by apply (Model_Load_fd_handle _ regs (opened_rd file_path s)).
Qed.



(** C7.  The open of a path-based load fails with an OS error code, that
    is with a status of category [SYSTEM].  Then [LoadModel] returns at
    once: the only event is the open and the handle is untouched, so
    nothing is parsed, constructed, resolved or closed; the status is
    NO_SUCHFILE for [ENOENT], INVALID_ARGUMENT for [EINVAL], and FAIL with
    the code in the message for any other code. *)
Theorem open_failure_mapped (file_path : string)
    (regs : option (list IOnnxRuntimeOpSchemaCollection)) (s : state) :
  IsOK (FileOpenRd file_path).1 = false →
  Category (FileOpenRd file_path).1 = SYSTEM →
  ∃ st s', LoadModel file_path regs s = (Return st, s')
    ∧ events s' = events s ++ [EvFileOpenRd file_path]
    ∧ p_model s' = p_model s
    ∧ st = (if bool_decide (Code (FileOpenRd file_path).1 = ENOENT) then
              Status_error ONNXRUNTIME NO_SUCHFILE
                ("Load model " +:+ file_path +:+ " failed. File doesn't exist")
            else if bool_decide (Code (FileOpenRd file_path).1 = EINVAL) then
              Status_error ONNXRUNTIME INVALID_ARGUMENT
                ("Load model " +:+ file_path +:+ " failed")
            else
              Status_error ONNXRUNTIME FAIL
                ("system error number " +:+ pretty (Code (FileOpenRd file_path).1))).
Proof.
  intros Hok Hcat. rewrite LoadModel_run. cbn zeta.
  rewrite Hok, Hcat. rewrite bool_decide_true by done. cbn [negb andb].
  by eexists _, _.
Qed.

(** C8.  A path-based load, and a path-based save, whose open succeeded
    with descriptor [fd]: the call returns a status, its last event is the
    close of [fd], and that is the only close it adds.  The status is the
    one of the load or save on the descriptor when that is not OK, FAIL
    with the message of the exception when it threw, and the status of
    the close only when the load or save was OK. *)
Theorem file_released_once :
  (∀ (file_path : string) (regs : option (list IOnnxRuntimeOpSchemaCollection))
     (s : state) (fd : Z),
     FileOpenRd file_path = (Status_OK, fd) →
     let inner := Model_Load_fd fd regs (opened_rd file_path s) in
     ∃ st s', LoadModel file_path regs s = (Return st, s')
       ∧ events s' = events inner.2 ++ [EvFileClose fd]
       ∧ closes (events s') = closes (events s) ++ [fd]
       ∧ st = match inner.1 with
              | Throw ex => Status_error ONNXRUNTIME FAIL ex
              | Return status => if IsOK status then FileClose fd else status
              end)
  ∧ (∀ (model : Model) (file_path : string) (s : state) (fd : Z),
     FileOpenWr file_path = (Status_OK, fd) →
     let inner := Model_Save_fd model fd (opened_wr file_path s) in
     ∃ st s', SaveModel model file_path s = (Return st, s')
       ∧ events s' = events inner.2 ++ [EvFileClose fd]
       ∧ closes (events s') = closes (events s) ++ [fd]
       ∧ st.1 = match inner.1 with
                | Throw ex => Status_error ONNXRUNTIME FAIL ex
                | Return saved => if IsOK saved.1 then FileClose fd else saved.1
                end).
Proof.
  split.
  - intros file_path regs s fd Hopen inner. subst inner.
    rewrite LoadModel_run, Hopen. cbn [fst snd IsOK negb andb]. cbn zeta.
    eexists _, _. split; [reflexivity|]. cbn [events].
    split; [done|]. split; [|done].
    rewrite closes_app, Model_Load_fd_closes. cbn [opened_rd events].
    rewrite closes_app. cbn. by rewrite app_nil_r.
  - intros model file_path s fd Hopen inner. subst inner.
    rewrite SaveModel_run, Hopen. cbn [fst snd IsOK negb]. cbn zeta.
    eexists _, _. split; [reflexivity|]. cbn [events].
    split; [done|]. split.
    + rewrite closes_app, Model_Save_fd_closes. cbn [opened_wr events].
      rewrite closes_app. cbn. by rewrite app_nil_r.
    + by destruct (Model_Save_fd model fd (opened_wr file_path s)).1.
Qed.

(** C9.  The stream load with a null output pointer returns
    INVALID_ARGUMENT and leaves the stream as it was; the message names
    the null pointer when the stream is good, and the stream when it is
    not, the stream being tested first.  A stream that is not good gives
    INVALID_ARGUMENT with the stream and the pointed-to message as they
    were, whatever the pointer. *)
Theorem Load_istream_null_pointer (model_istream : istream)
    (p_model_proto : option ModelProto) :
  Model_Load_istream model_istream None =
    (Status_error ONNXRUNTIME INVALID_ARGUMENT
       (if good model_istream then "Null model_proto ptr."
        else "Invalid istream object."),
     model_istream, None)
  ∧ (good model_istream = false →
     Model_Load_istream model_istream p_model_proto =
       (Status_error ONNXRUNTIME INVALID_ARGUMENT "Invalid istream object.",
        model_istream, p_model_proto)).
Proof.
  unfold Model_Load_istream. split.
  - by destruct (good model_istream).
  - by intros ->.
Qed.


(** The byte load and the file-descriptor load construct the model
    outside any handler: what the constructor throws, they throw. *)
Lemma LoadFromBytes_rethrows count p_bytes regs (s : state) (ex : string) :
  (ParseFromArray p_bytes count).1 = true →
  Model_from_proto (Some (ParseFromArray p_bytes count).2) regs = Throw ex →
  (Model_LoadFromBytes count p_bytes regs s).1 = Throw ex.
Proof.
  intros Hparse Hctor. rewrite Model_LoadFromBytes_run. cbn zeta.
  by rewrite Hparse, construct_bind_resolve_run, Hctor.
Qed.

(** The descriptor load turns the same exception into INVALID_ARGUMENT. *)
Lemma Load_proto_catches (mp : ModelProto) regs (s : state) (ex : string) :
  has_graph mp = true →
  Model_from_proto (Some mp) regs = Throw ex →
  (Model_Load_proto mp regs s).1 =
    Return (Status_error ONNXRUNTIME INVALID_ARGUMENT
              ("Failed to load model with error: " +:+ ex)).
Proof.
  intros Hg Hctor. unfold Model_Load_proto. rewrite Hg. cbn [negb].
  by rewrite construct_and_resolve_run, Hctor.
Qed.

End LifecycleFacts.

(** * Further properties of the negotiation *)

Section NegotiationExtras.
Context `{Engine}.

Lemma narrow_cast_int_fits (v : Z) : fits_int v → narrow_cast_int v = v.
Proof.
  unfold fits_int, narrow_cast_int. intros Hv.
  rewrite Z.mod_small; lia.
Qed.

Lemma narrow_cast_int_range (v : Z) : fits_int (narrow_cast_int v).
Proof.
  unfold fits_int, narrow_cast_int.
  pose proof (Z.mod_pos_bound (v + 2 ^ 31) (2 ^ 32)). lia.
Qed.

Lemma last_such_snoc {A} (P : A → Prop) `{∀ x, Decision (P x)} (l : list A) (x : A) :
  last_such P (l ++ [x]) = if decide (P x) then Some x else last_such P l.
Proof.
  unfold last_such. rewrite filter_app, filter_cons, filter_nil.
  case_decide; [apply last_snoc|by rewrite app_nil_r].
Qed.

(** The table after the first loop, key by key: the version of the last
    import recorded under the key, cut to [int]; the table before when
    there is none. *)
Lemma fold_record_opset_last (k : string) l (t : gmap string Z) :
  fold_left record_opset l t !! k =
  match last_such (λ e, canonical_domain (domain e) = k) l with
  | Some e => Some (narrow_cast_int (version e))
  | None => t !! k
  end.
Proof.
  induction l as [|e l IH] using rev_ind; [done|].
  rewrite fold_left_app, last_such_snoc. cbn [fold_left].
  rewrite record_opset_insert. case_decide as Hk.
  - subst k. by rewrite lookup_insert_eq.
  - by rewrite lookup_insert_ne.
Qed.

(** X1.  Last write wins for every domain.  The decode constructor, on a
    descriptor with a graph, gives the graph a table that holds, under a
    key, the version of the last import whose domain is that key (the
    alias counting as the canonical key), cut to [int]. *)
Theorem decoded_table_last_entry (mp : ModelProto)
    (regs : option (list IOnnxRuntimeOpSchemaCollection))
    (k : string) (e : OperatorSetIdProto) :
  has_graph mp = true →
  last_such (λ e, canonical_domain (domain e) = k) (opset_import mp) = Some e →
  ∃ m, Model_from_proto (Some mp) regs = Return m
       ∧ graph_domain_to_version (graph_ m) !! k = Some (narrow_cast_int (version e)).
Proof.
  intros Hg Hlast. exists (Model_from_checked_proto mp regs). split.
  - apply Model_from_proto_checked; [done|]. intros Hnil.
    by rewrite Hnil in Hlast.
  - unfold Model_from_checked_proto. cbn [graph_ graph_domain_to_version].
    rewrite fill_defaults_table. apply lookup_union_Some_l.
    unfold explicit_table. by rewrite fold_record_opset_last, Hlast.
Qed.

Lemma explicit_table_no_alias l : explicit_table l !! kOnnxDomainAlias = None.
Proof.
  destruct (explicit_table l !! kOnnxDomainAlias) eqn:Hl; [|done].
  assert (Hs : is_Some (explicit_table l !! kOnnxDomainAlias)) by by eexists.
  apply explicit_table_is_Some in Hs as (e & _ & He).
  unfold canonical_domain in He. by case_decide.
Qed.

(** X2.  The alias is never a key the descriptor contributes: when the
    table of a decoded model has the alias as a key, the registry reports
    the alias as a domain. *)
Theorem decoded_table_alias_key (mp : option ModelProto)
    (regs : option (list IOnnxRuntimeOpSchemaCollection)) (m : Model) :
  Model_from_proto mp regs = Return m →
  is_Some (graph_domain_to_version (graph_ m) !! kOnnxDomainAlias) →
  kOnnxDomainAlias ∈ (GetLatestOpsetVersions (make_schema_registry regs) false).*1.
Proof.
  intros (p & -> & _ & _ & ->)%Model_from_proto_Return_inv.
  unfold Model_from_checked_proto. cbn [graph_ graph_domain_to_version].
  rewrite fill_defaults_table, lookup_union_r by apply explicit_table_no_alias.
  intros [v Hv]. apply elem_of_list_to_map_2 in Hv.
  apply list_elem_of_fmap. by exists (kOnnxDomainAlias, v).
Qed.

Lemma explicit_table_fits_int l (k : string) (v : Z) :
  explicit_table l !! k = Some v → fits_int v.
Proof.
  unfold explicit_table. rewrite fold_record_opset_last.
  destruct (last_such _ l); [|by rewrite lookup_empty].
  intros [= <-]. apply narrow_cast_int_range.
Qed.

(** X3.  Every version in the table of a decoded model fits [int] or is
    the one the registry reports for the key. *)
Theorem decoded_table_fits_int (mp : option ModelProto)
    (regs : option (list IOnnxRuntimeOpSchemaCollection)) (m : Model)
    (k : string) (v : Z) :
  Model_from_proto mp regs = Return m →
  graph_domain_to_version (graph_ m) !! k = Some v →
  fits_int v ∨ (k, v) ∈ GetLatestOpsetVersions (make_schema_registry regs) false.
Proof.
  intros (p & -> & _ & _ & ->)%Model_from_proto_Return_inv.
  unfold Model_from_checked_proto. cbn [graph_ graph_domain_to_version].
  rewrite fill_defaults_table.
  intros [Hv|[_ Hv]]%lookup_union_Some_raw.
  - left. by eapply explicit_table_fits_int.
  - right. by apply elem_of_list_to_map_2.
Qed.

(** *** The default fill saturates *)

Lemma fill_defaults_listed (dm : list (string * Z)) (t : gmap string Z) l :
  kOnnxDomainAlias ∉ dm.*1 →
  table_listed (t, l) → table_listed (fill_defaults dm (t, l)).
Proof.
  revert t l. induction dm as [|[d v] dm IH]; intros t l Halias Hinv; [done|].
  rewrite fmap_cons, not_elem_of_cons in Halias. destruct Halias as [Hd Halias].
  unfold fill_defaults in *. cbn [fold_left]. unfold fill_default at 2.
  cbn [fst snd] in *. destruct (t !! d) eqn:Htd; [by apply IH|].
  apply IH; [done|]. intros k Hk. cbn [fst snd] in *.
  destruct (decide (k = d)) as [->|Hne].
  - exists (mk_opset d v). split; [apply elem_of_app; right; apply list_elem_of_here|].
    unfold canonical_domain. cbn [domain]. by rewrite decide_False.
  - rewrite lookup_insert_ne in Hk by done.
    destruct (Hinv k Hk) as (e & He & Hce). exists e.
    split; [apply elem_of_app; by left|done].
Qed.

Lemma decoded_list_covers (mp : ModelProto)
    (regs : option (list IOnnxRuntimeOpSchemaCollection)) :
  kOnnxDomainAlias ∉ (GetLatestOpsetVersions (make_schema_registry regs) false).*1 →
  covers_registry (opset_import (model_proto_ (Model_from_checked_proto mp regs)))
    (GetLatestOpsetVersions (make_schema_registry regs) false).
Proof.
  intros Halias. unfold covers_registry, Model_from_checked_proto.
  cbn [model_proto_ opset_import with_opset_import].
  apply Forall_forall. intros [d v] Hd.
  apply (fill_defaults_listed _ _ _ Halias).
  - intros k Hk. by apply explicit_table_is_Some.
  - rewrite fill_defaults_table. cbn [fst].
    destruct (explicit_table (opset_import mp) !! d) eqn:Ht.
    + erewrite lookup_union_Some_l by done. by eexists.
    + rewrite lookup_union_r by done.
      destruct (list_to_map _ !! d) eqn:Hlm; [by eexists|].
      apply not_elem_of_list_to_map_2 in Hlm. destruct Hlm.
      by apply (list_elem_of_fmap_2 fst) in Hd.
Qed.

(** X4.  The default fill is idempotent on every descriptor, when the
    registry does not report the alias as a domain: a descriptor that
    passes the checks is decoded, and decoding what [ToProto] returns and
    taking [ToProto] again gives the same list of imports. *)
Theorem default_fill_idempotent (mp : ModelProto)
    (regs : option (list IOnnxRuntimeOpSchemaCollection)) :
  has_graph mp = true → opset_import mp ≠ [] →
  kOnnxDomainAlias ∉ (GetLatestOpsetVersions (make_schema_registry regs) false).*1 →
  ∃ m m', Model_from_proto (Some mp) regs = Return m
    ∧ Model_from_proto (Some (ToProto m).1) regs = Return m'
    ∧ opset_import (ToProto m').1 = opset_import (ToProto m).1.
Proof.
  intros Hg Hl Halias.
  exists (Model_from_checked_proto mp regs),
         (Model_from_checked_proto (ToProto (Model_from_checked_proto mp regs)).1 regs).
  split; [by apply Model_from_proto_checked|].
  pose proof (decoded_list_covers mp regs Halias) as Hc.
  split.
  - apply Model_from_proto_checked; [done|].
    unfold ToProto, Model_from_checked_proto.
    cbn [fst model_proto_ opset_import with_graph with_opset_import].
    destruct (fill_defaults_grows
                (GetLatestOpsetVersions (make_schema_registry regs) false)
                (explicit_table (opset_import mp)) (opset_import mp))
      as (added & -> & _).
    by destruct (opset_import mp).
  - apply ToProto_decoded_covered.
    unfold ToProto. cbn [fst opset_import with_graph]. exact Hc.
Qed.

(** *** Metadata *)

Lemma metadata_of_props_last (k : string) props (t : gmap string string) :
  fold_left (λ m prop, <[key prop := value prop]> m) props t !! k =
  match last_such (λ p, key p = k) props with
  | Some p => Some (value p)
  | None => t !! k
  end.
Proof.
  induction props as [|p props IH] using rev_ind; [done|].
  rewrite fold_left_app, last_such_snoc. cbn [fold_left]. case_decide as Hk.
  - subst k. by rewrite lookup_insert_eq.
  - by rewrite lookup_insert_ne.
Qed.

(** X5.  The metadata of a decoded model: under a key, the value of the
    last property of the descriptor with that key, and nothing under a key
    no property has. *)
Theorem decoded_metadata_last_wins (mp : option ModelProto)
    (regs : option (list IOnnxRuntimeOpSchemaCollection)) (m : Model) (k : string) :
  Model_from_proto mp regs = Return m →
  ∃ p, mp = Some p
       ∧ MetaData m !! k = value <$> last_such (λ prop, key prop = k) (metadata_props p).
Proof.
  intros (p & -> & _ & _ & ->)%Model_from_proto_Return_inv. exists p.
  split; [done|]. unfold MetaData, Model_from_checked_proto, metadata_of_props.
  cbn [model_metadata_]. rewrite metadata_of_props_last.
  by destruct (last_such _ _).
Qed.

End NegotiationExtras.

(** * Properties of the fresh constructor, the accessors and [AddFunction] *)

Section AccessorFacts.
Context `{Engine} `{!GraphFunctions}.

(** Imports written from a map of distinct keys, none the alias, with
    versions that fit [int], are read back as that map. *)
Lemma fold_record_opset_of_map (l : list (string * Z)) (t : gmap string Z) :
  NoDup l.*1 → kOnnxDomainAlias ∉ l.*1 → Forall (λ d, fits_int d.2) l →
  fold_left record_opset ((λ d, mk_opset d.1 d.2) <$> l) t = list_to_map l ∪ t.
Proof.
  revert t. induction l as [|[d v] l IH]; intros t Hnd Halias Hfit.
  - cbn. by rewrite (left_id_L ∅ (∪)).
  - rewrite fmap_cons in Hnd, Halias. apply NoDup_cons in Hnd as [Hd Hnd].
    apply not_elem_of_cons in Halias as [Hne Halias].
    apply Forall_cons in Hfit as [Hv Hfit]. cbn [fst snd] in *.
    rewrite fmap_cons. cbn [fold_left list_to_map foldr fst snd].
    rewrite IH by done. rewrite record_opset_insert. cbn [domain version].
    unfold canonical_domain. rewrite decide_False by done.
    rewrite narrow_cast_int_fits by done.
    rewrite <- insert_union_r by by apply not_elem_of_list_to_map_1.
    by rewrite insert_union_l.
Qed.

Lemma metadata_of_props_of_map (l : list (string * string)) (t : gmap string string) :
  NoDup l.*1 →
  fold_left (λ m prop, <[key prop := value prop]> m)
    ((λ md, mk_prop md.1 md.2) <$> l) t = list_to_map l ∪ t.
Proof.
  revert t. induction l as [|[k v] l IH]; intros t Hnd.
  - cbn. by rewrite (left_id_L ∅ (∪)).
  - rewrite fmap_cons in Hnd. apply NoDup_cons in Hnd as [Hk Hnd].
    rewrite fmap_cons. cbn [fold_left list_to_map foldr fst snd key value].
    rewrite IH by done.
    rewrite <- insert_union_r by by apply not_elem_of_list_to_map_1.
    by rewrite insert_union_l.
Qed.

(** X6.  A fresh model built from a caller's map and then taken through
    [ToProto] and the decode constructor.  The caller's maps have distinct
    keys, no key of the opset map is the alias, and its versions fit
    [int].  Then the decode succeeds; the metadata, the functions and the
    IR version are those of the fresh model; and the table is the fresh
    model's table with the registry's latest versions added for the
    domains it lacks: the fresh constructor does not fill in defaults, the
    decode constructor does. *)
Theorem fresh_then_decoded (graph_name : string) (is_onnx_domain_only : bool)
    (model_metadata : list (string * string))
    (local_registries : list IOnnxRuntimeOpSchemaCollection)
    (domain_to_version : list (string * Z))
    (model_functions : list FunctionProto) :
  domain_to_version ≠ [] →
  NoDup domain_to_version.*1 → NoDup model_metadata.*1 →
  kOnnxDomainAlias ∉ domain_to_version.*1 →
  Forall (λ d, fits_int d.2) domain_to_version →
  ∃ m', Model_from_proto
          (Some (ToProto (Model_fresh graph_name is_onnx_domain_only model_metadata
                            local_registries domain_to_version model_functions)).1)
          (Some local_registries) = Return m'
    ∧ MetaData m' = list_to_map model_metadata
    ∧ graph_domain_to_version (graph_ m')
      = list_to_map domain_to_version
        ∪ list_to_map (GetLatestOpsetVersions
                         (make_schema_registry (Some local_registries)) false)
    ∧ functions (model_proto_ m') = model_functions
    ∧ Model_IrVersion m' = IR_VERSION.
Proof.
  intros Hne Hnd Hmd Halias Hfit.
  eexists. split.
  - apply Model_from_proto_checked; [done|].
    unfold ToProto, Model_fresh. cbn [fst model_proto_ opset_import with_graph].
    rewrite bool_decide_false by done. by destruct domain_to_version.
  - unfold ToProto, Model_fresh, Model_from_checked_proto, MetaData, Model_IrVersion,
      IrVersion, metadata_of_props, explicit_table.
    cbn [fst model_proto_ opset_import with_graph with_opset_import metadata_props
         model_metadata_ graph_ graph_domain_to_version functions ir_version].
    rewrite bool_decide_false by done.
    rewrite fill_defaults_table, fold_record_opset_of_map by done.
    rewrite metadata_of_props_of_map by done.
    by rewrite !(right_id_L ∅ (∪)).
Qed.

(** X7.  What the setters write is what the getters of a decoded copy
    read: a model with at least one opset import gets a producer name, a
    producer version, a domain, a model version and a doc string; the
    descriptor [ToProto] returns decodes, and the getters of the decoded
    model return these five values. *)
Theorem setters_survive_round_trip (m : Model)
    (regs : option (list IOnnxRuntimeOpSchemaCollection))
    (pn pv dm ds : string) (v : Z) :
  opset_import (model_proto_ m) ≠ [] →
  ∃ m', Model_from_proto
          (Some (ToProto (SetDocString ds (SetModelversion v (SetDomain dm
                   (SetProducerVersion pv (SetProducerName pn m)))))).1) regs
        = Return m'
    ∧ ProducerName m' = pn ∧ ProducerVersion m' = pv ∧ Domain m' = dm
    ∧ ModelVersion m' = v ∧ DocString m' = ds
    ∧ Model_IrVersion m' = Model_IrVersion m.
Proof.
  intros Hl. eexists. split.
  - apply Model_from_proto_checked; [done|]. exact Hl.
  - done.
Qed.

Lemma functions_map_from_snoc (fs : list FunctionProto) (f : FunctionProto) :
  functions_map_from 0 (fs ++ [f]) !! name f = Some (length fs).
Proof.
  unfold functions_map_from. rewrite length_app. cbn [length].
  rewrite Nat.add_1_r, seq_S. cbn [Nat.add].
  rewrite zip_with_app by by rewrite length_seq.
  rewrite fold_left_app. cbn. by rewrite lookup_insert_eq.
Qed.

(** X8.  A function added to a model with at least one opset import is
    the last function of the descriptor [ToProto] returns; that descriptor
    decodes, and the function map of the decoded graph points, under the
    function's name, at that last position, whether or not an earlier
    function has the same name.  Adding the same function twice stores it
    twice. *)
Theorem AddFunction_round_trip (func_proto : FunctionProto) (m : Model)
    (regs : option (list IOnnxRuntimeOpSchemaCollection)) :
  opset_import (model_proto_ m) ≠ [] →
  ∃ m', Model_from_proto (Some (ToProto (AddFunction func_proto m)).1) regs = Return m'
    ∧ functions (model_proto_ m') = functions (model_proto_ m) ++ [func_proto]
    ∧ graph_model_functions (graph_ m') !! name func_proto
      = Some (length (functions (model_proto_ m)))
    ∧ functions (model_proto_ (AddFunction func_proto (AddFunction func_proto m)))
      = functions (model_proto_ m) ++ [func_proto; func_proto].
Proof.
  intros Hl. eexists. split.
  - apply Model_from_proto_checked; [done|]. exact Hl.
  - split; [done|]. split.
    + unfold Model_from_checked_proto, ToProto, AddFunction.
      cbn [fst graph_ graph_model_functions model_proto_ functions with_graph
           with_opset_import add_functions].
      apply functions_map_from_snoc.
    + unfold AddFunction. cbn [model_proto_ functions add_functions].
      by rewrite <- app_assoc.
Qed.

End AccessorFacts.

(** * Further properties of load and save *)

Section LifecycleExtras.
Context `{Engine}.

Ltac step_M :=
  unfold ORT_RETURN_IF_ERROR, MainGraph_Resolve, Resolve_model, new_Model,
    Env_FileOpenRd, Env_FileOpenWr, Env_FileClose, bind_handle, emit_all, emit,
    try_catch, throw, mbind, M_bind, mret, M_ret;
  cbn [events p_model fst snd].

Lemma open_failure_status_not_OK (file_path : string) (code : Z) :
  IsOK (open_failure_status file_path code) = false.
Proof. unfold open_failure_status. by repeat case_bool_decide. Qed.

Lemma construct_bind_resolve_Return (mp : ModelProto) regs (s s' : state) (st : Status) :
  construct_bind_resolve mp regs s = (Return st, s') →
  ∃ m, Model_from_proto (Some mp) regs = Return m
       ∧ st = (Resolve (graph_ m) true).1
       ∧ events s' = ((events s ++ [EvNewModel])
                        ++ (EvWarning <$> Model_from_proto_warnings mp))
                       ++ [EvResolve true].
Proof.
  rewrite construct_bind_resolve_run.
  destruct (Model_from_proto (Some mp) regs) as [m|ex]; [|done].
  intros [= <- <-]. by exists m.
Qed.

Lemma Model_Load_fd_OK fd regs (s s' : state) (st : Status) :
  Model_Load_fd fd regs s = (Return st, s') → IsOK st = true →
  ∃ m, Model_from_proto (Some (ParseFromFileInputStream fd).1.2) regs = Return m
       ∧ st = (Resolve (graph_ m) true).1
       ∧ events s' = (((events s ++ [EvParseFromFd fd]) ++ [EvNewModel])
                        ++ (EvWarning <$> Model_from_proto_warnings
                                            (ParseFromFileInputStream fd).1.2))
                       ++ [EvResolve true].
Proof.
  rewrite Model_Load_fd_run. case_bool_decide; [by intros [= <- <-]|]. cbn zeta.
  destruct (_ && _); [|by intros [= <- <-]].
  intros Hrun _. by apply construct_bind_resolve_Return in Hrun.
Qed.

(** A load that returns OK has reached [Resolve]. *)
Lemma run_load_OK_reached (entry : load_entry) regs (s s' : state) (st : Status) :
  run_load entry regs s = (Return st, s') → IsOK st = true →
  EvResolve true ∈ events s'.
Proof.
  destruct entry as [count p_bytes|mp|mp|fd|file_path]; cbn [run_load].
  - rewrite Model_LoadFromBytes_run. cbn zeta.
    destruct (ParseFromArray p_bytes count).1; [|by intros [= <- <-]].
    intros (m & _ & _ & ->)%construct_bind_resolve_Return _.
    apply elem_of_app. right. apply list_elem_of_here.
  - unfold Model_Load_proto. destruct (negb (has_graph mp)); [by intros [= <- <-]|].
    rewrite construct_and_resolve_run.
    destruct (Model_from_proto (Some mp) regs); [|by intros [= <- <-]].
    intros [= <- <-] _. apply elem_of_app. right. apply list_elem_of_here.
  - unfold Model_Load_unique_ptr.
    destruct (negb (has_graph mp)); [by intros [= <- <-]|].
    rewrite construct_and_resolve_run.
    destruct (Model_from_proto (Some mp) regs); [|by intros [= <- <-]].
    intros [= <- <-] _. apply elem_of_app. right. apply list_elem_of_here.
  - intros Hrun Hok. destruct (Model_Load_fd_OK _ _ _ _ _ Hrun Hok) as (m & _ & _ & ->).
    apply elem_of_app. right. apply list_elem_of_here.
  - unfold Model_Load_path. rewrite LoadModel_run. cbn zeta.
    destruct (negb _ && _).
    { intros [= <- <-]. by rewrite open_failure_status_not_OK. }
    destruct (Model_Load_fd _ regs (opened_rd file_path s)) as [[status|ex] s1] eqn:Hin;
      cbn [fst snd]; [|by intros [= <- <-]].
    intros [= <- <-] Hok. cbn [events]. apply elem_of_app. left.
    destruct (IsOK status) eqn:Hst; [|by rewrite Hst in Hok].
    destruct (Model_Load_fd_OK _ _ _ _ _ Hin Hst) as (m & _ & _ & ->).
    apply elem_of_app. right. apply list_elem_of_here.
Qed.

(** X9.  A load entry point that returns OK has bound the output handle:
    to a model the decode constructor returned, as [Resolve], which
    returned OK, left it. *)
Theorem load_OK_binds_resolved_model (entry : load_entry)
    (regs : option (list IOnnxRuntimeOpSchemaCollection))
    (h : option Model) (st : Status) (s' : state) :
  run_load entry regs (initially h) = (Return st, s') →
  IsOK st = true →
  ∃ mp m, Model_from_proto (Some mp) regs = Return m
    ∧ IsOK (Resolve (graph_ m) true).1 = true
    ∧ p_model s' = Some (with_graph_ (Resolve (graph_ m) true).2 m).
Proof.
  intros Hrun Hok.
  pose proof (run_load_OK_reached entry regs _ _ _ Hrun Hok) as Hreached.
  pose proof (run_load_handle entry regs (initially h)) as Hrule.
  rewrite Hrun in Hrule.
  destruct Hrule as [[Hno _]|(_ & mp & m & Hm & Hp & Hst)];
    [apply not_elem_of_nil|done|].
  exists mp, m. split; [done|]. split; [|done].
  cbn [fst] in Hst. destruct Hst as [[= ->]|[Hres _]]; done.
Qed.

(** X10.  What the decode constructor throws, the descriptor loads and
    the path load turn into a status.  The constructor throws [ex] on the
    descriptor that reaches it.  Then a descriptor load returns
    INVALID_ARGUMENT with [ex] after the prefix of the message and has
    done nothing but the construction; a path load returns FAIL with [ex]
    as message and has closed the descriptor it opened; both leave the
    output handle as it was, and neither resolves. *)
Theorem constructor_exception_converted
    (regs : option (list IOnnxRuntimeOpSchemaCollection)) (s : state) (ex : string) :
  (∀ mp : ModelProto,
     has_graph mp = true → Model_from_proto (Some mp) regs = Throw ex →
     Model_Load_proto mp regs s
     = (Return (Status_error ONNXRUNTIME INVALID_ARGUMENT
                  ("Failed to load model with error: " +:+ ex)),
        {| events := events s ++ [EvNewModel]; p_model := p_model s |})
     ∧ Model_Load_unique_ptr mp regs s = Model_Load_proto mp regs s)
  ∧ (∀ (file_path : string) (mp : ModelProto),
       descriptor_reached (FromPath file_path) = Some mp →
       Model_from_proto (Some mp) regs = Throw ex →
       LoadModel file_path regs s
       = (Return (Status_error ONNXRUNTIME FAIL ex),
          {| events := events s ++ [EvFileOpenRd file_path;
                                    EvParseFromFd (FileOpenRd file_path).2;
                                    EvNewModel;
                                    EvFileClose (FileOpenRd file_path).2];
             p_model := p_model s |})).
Proof.
  split.
  - intros mp Hg Hctor. split; [|done].
    unfold Model_Load_proto. rewrite Hg. cbn [negb].
    by rewrite construct_and_resolve_run, Hctor.
  - intros file_path mp Hreached Hctor. cbn [descriptor_reached] in Hreached.
    rewrite LoadModel_run. cbn zeta.
    destruct (negb _ && _); [done|].
    rewrite Model_Load_fd_run. unfold descriptor_parsed_from_fd in Hreached.
    case_bool_decide; [done|]. cbn zeta.
    destruct (_ && _); [|done]. injection Hreached as Hmp.
    rewrite construct_bind_resolve_run, Hmp, Hctor.
    cbn [fst snd events p_model opened_rd]. by rewrite <- !app_assoc.
Qed.

(** X11.  The events of a path load that returns OK, in order: the open,
    the parse from the descriptor the open gave, the construction, one
    warning per default-domain import of the parsed descriptor below
    version 7, the full resolve, and last the close of that descriptor. *)
Theorem path_load_OK_trace (file_path : string)
    (regs : option (list IOnnxRuntimeOpSchemaCollection))
    (h : option Model) (s' : state) :
  LoadModel file_path regs (initially h) = (Return Status_OK, s') →
  events s' =
    [EvFileOpenRd file_path; EvParseFromFd (FileOpenRd file_path).2; EvNewModel]
    ++ (EvWarning <$> Model_from_proto_warnings
                        (ParseFromFileInputStream (FileOpenRd file_path).2).1.2)
    ++ [EvResolve true; EvFileClose (FileOpenRd file_path).2].
Proof.
  rewrite LoadModel_run. cbn zeta.
  destruct (negb _ && _).
  { intros [= Hst _]. pose proof (open_failure_status_not_OK file_path
      (Code (FileOpenRd file_path).1)) as Hno. by rewrite Hst in Hno. }
  destruct (Model_Load_fd _ regs (opened_rd file_path (initially h)))
    as [[status|ex] s1] eqn:Hin; cbn [fst snd]; [|done].
  intros [= Hst <-]. cbn [events].
  destruct (IsOK status) eqn:Hok; [|by subst status].
  destruct (Model_Load_fd_OK _ _ _ _ _ Hin Hok) as (m & _ & _ & ->).
  cbn [opened_rd initially events]. by rewrite <- !app_assoc.
Qed.

(** X18.  What the decode constructor throws, the byte load and the
    file-descriptor load throw.  The constructor throws [ex] on the
    descriptor the load parsed.  Then the load throws [ex], having done
    nothing but the parse and the construction, and the output handle is
    as it was. *)
Theorem constructor_exception_escapes
    (regs : option (list IOnnxRuntimeOpSchemaCollection)) (s : state) (ex : string) :
  (∀ (count : Z) (p_bytes : list Byte.byte) (mp : ModelProto),
     descriptor_reached (FromBytes count p_bytes) = Some mp →
     Model_from_proto (Some mp) regs = Throw ex →
     Model_LoadFromBytes count p_bytes regs s
     = (Throw ex,
        {| events := events s ++ [EvParseFromArray; EvNewModel];
           p_model := p_model s |}))
  ∧ (∀ (fd : Z) (mp : ModelProto),
       descriptor_reached (FromFd fd) = Some mp →
       Model_from_proto (Some mp) regs = Throw ex →
       Model_Load_fd fd regs s
       = (Throw ex,
          {| events := events s ++ [EvParseFromFd fd; EvNewModel];
             p_model := p_model s |})).
Proof.
  split.
  - intros count p_bytes mp Hreached Hctor. cbn [descriptor_reached] in Hreached.
    rewrite Model_LoadFromBytes_run. cbn zeta.
    destruct (ParseFromArray p_bytes count).1; [|done]. injection Hreached as Hmp.
    rewrite construct_bind_resolve_run, Hmp, Hctor.
    cbn [events p_model]. by rewrite <- !app_assoc.
  - intros fd mp Hreached Hctor. cbn [descriptor_reached] in Hreached.
    unfold descriptor_parsed_from_fd in Hreached.
    rewrite Model_Load_fd_run. case_bool_decide; [done|]. cbn zeta.
    destruct (_ && _); [|done]. injection Hreached as Hmp.
    rewrite construct_bind_resolve_run, Hmp, Hctor.
    cbn [events p_model]. by rewrite <- !app_assoc.
Qed.

(** *** Save *)

Lemma Model_Save_fd_run model p_fd (s : state) :
  Model_Save_fd model p_fd s =
  if bool_decide (p_fd < 0) then
    (Return (Status_error ONNXRUNTIME INVALID_ARGUMENT "<p_fd> is less than 0.", model), s)
  else
    let resolved := Resolve (graph_ model) false in
    let s1 := {| events := events s ++ [EvResolve false]; p_model := p_model s |} in
    if IsOK resolved.1 then
      let model_proto := ToProto (with_graph_ resolved.2 model) in
      (Return (if SerializeToZeroCopyStream model_proto.1 p_fd && Flush model_proto.1 p_fd
               then Status_OK
               else Status_error ONNXRUNTIME INVALID_PROTOBUF
                      "Protobuf serialization failed.",
               model_proto.2),
       {| events := events s1 ++ [EvSerialize p_fd]; p_model := p_model s |})
    else (Return (resolved.1, with_graph_ resolved.2 model), s1).
Proof.
  unfold Model_Save_fd. case_bool_decide; [done|]. step_M. cbn zeta.
  destruct (IsOK (Resolve (graph_ model) false).1); cbn [negb]; [|done].
  by destruct (SerializeToZeroCopyStream _ _ && Flush _ _).
Qed.

(** X12.  A save to a path whose graph does not pass [Resolve]: the file
    is opened and closed, nothing is serialized, the status is the one
    [Resolve] returned, and the descriptor of the model is as it was. *)
Theorem save_unresolved_writes_nothing (model : Model) (file_path : string)
    (s : state) (fd : Z) :
  FileOpenWr file_path = (Status_OK, fd) → 0 ≤ fd →
  IsOK (Resolve (graph_ model) false).1 = false →
  ∃ model', SaveModel model file_path s
      = (Return ((Resolve (graph_ model) false).1, model'),
         {| events := events s ++ [EvFileOpenWr file_path; EvResolve false; EvFileClose fd];
            p_model := p_model s |})
    ∧ model_proto_ model' = model_proto_ model.
Proof.
  intros Hopen Hfd Hres. rewrite SaveModel_run, Hopen. cbn [fst snd IsOK negb]. cbn zeta.
  rewrite Model_Save_fd_run. rewrite bool_decide_false by lia. cbn zeta.
  rewrite Hres. cbn [fst snd events p_model opened_wr]. rewrite Hres.
  exists (with_graph_ (Resolve (graph_ model) false).2 model).
  split; [by rewrite <- !app_assoc|done].
Qed.

(** X13.  What a save to a path leaves alone.  In the model it returns
    the metadata is as it was, and the descriptor is as it was but for the
    graph field: when the open succeeded, the descriptor is not negative
    and [Resolve] was OK, the graph field is what the resolved graph
    gives; otherwise the descriptor is unchanged. *)
Theorem save_frame (model : Model) (file_path : string) (s : state)
    (st : Status) (model' : Model) (s' : state) :
  SaveModel model file_path s = (Return (st, model'), s') →
  model_metadata_ model' = model_metadata_ model
  ∧ model_proto_ model'
    = (if IsOK (FileOpenWr file_path).1
          && negb (bool_decide ((FileOpenWr file_path).2 < 0))
          && IsOK (Resolve (graph_ model) false).1
       then with_graph (ToGraphProto (Resolve (graph_ model) false).2)
              (model_proto_ model)
       else model_proto_ model)
  ∧ ir_version (model_proto_ model') = ir_version (model_proto_ model)
  ∧ producer_name (model_proto_ model') = producer_name (model_proto_ model)
  ∧ producer_version (model_proto_ model') = producer_version (model_proto_ model)
  ∧ model_domain (model_proto_ model') = model_domain (model_proto_ model)
  ∧ model_version (model_proto_ model') = model_version (model_proto_ model)
  ∧ doc_string (model_proto_ model') = doc_string (model_proto_ model)
  ∧ opset_import (model_proto_ model') = opset_import (model_proto_ model)
  ∧ metadata_props (model_proto_ model') = metadata_props (model_proto_ model)
  ∧ functions (model_proto_ model') = functions (model_proto_ model).
Proof.
  rewrite SaveModel_run. cbn zeta.
  destruct (IsOK (FileOpenWr file_path).1); cbn [negb andb];
    [|by intros [= <- <- <-]].
  rewrite Model_Save_fd_run. case_bool_decide; cbn [negb andb fst snd];
    [by intros [= <- <- <-]|].
  destruct (IsOK (Resolve (graph_ model) false).1); cbn [fst snd];
    by intros [= <- <- <-].
Qed.

(** X14.  A save to a path whose open fails returns the status of the
    open as it is, whatever its category and code, and does nothing
    else: no resolve, no write, no close. *)
Theorem save_open_failure_verbatim (model : Model) (file_path : string) (s : state) :
  IsOK (FileOpenWr file_path).1 = false →
  SaveModel model file_path s
  = (Return ((FileOpenWr file_path).1, model),
     {| events := events s ++ [EvFileOpenWr file_path]; p_model := p_model s |}).
Proof. intros Hopen. rewrite SaveModel_run. cbn zeta. by rewrite Hopen. Qed.

(** *** The stream load *)

(** X15.  The stream load returns OK exactly when the stream is good, the
    pointer is not null, the parse succeeds and the stream is at its end
    after the parse; it then leaves the parsed message behind the
    pointer. *)
Theorem Load_istream_OK_iff (model_istream : istream)
    (p_model_proto : option ModelProto) :
  IsOK (Model_Load_istream model_istream p_model_proto).1.1
  = good model_istream && bool_decide (is_Some p_model_proto)
    && (ParseFromIstream model_istream).1.1
    && eof (ParseFromIstream model_istream).2
  ∧ (IsOK (Model_Load_istream model_istream p_model_proto).1.1 = true →
     (Model_Load_istream model_istream p_model_proto).2
     = Some (ParseFromIstream model_istream).1.2).
Proof.
  unfold Model_Load_istream.
  destruct (good model_istream); cbn [negb andb]; [|done].
  destruct p_model_proto as [p|]; cbn; [|done].
  by destruct ((ParseFromIstream model_istream).1.1 && _).
Qed.

(** *** A failed open of another category *)

(** X16.  A path load whose open fails with a status of another category
    than [SYSTEM] goes on as after a successful open: it runs the load on
    the descriptor the open left, closes that descriptor once, and returns
    that load's status, or FAIL when it threw, or the status of the close
    when it was OK. *)
Theorem open_failure_not_system_goes_on (file_path : string)
    (regs : option (list IOnnxRuntimeOpSchemaCollection)) (s : state) :
  IsOK (FileOpenRd file_path).1 = false →
  Category (FileOpenRd file_path).1 ≠ SYSTEM →
  ∃ st s', LoadModel file_path regs s = (Return st, s')
    ∧ closes (events s') = closes (events s) ++ [(FileOpenRd file_path).2]
    ∧ st = match (Model_Load_fd (FileOpenRd file_path).2 regs
                    (opened_rd file_path s)).1 with
           | Throw ex => Status_error ONNXRUNTIME FAIL ex
           | Return status =>
               if IsOK status then FileClose (FileOpenRd file_path).2 else status
           end.
Proof.
  intros Hok Hcat. rewrite LoadModel_run. cbn zeta.
  rewrite bool_decide_false, andb_false_r by done.
  eexists _, _. split; [reflexivity|]. split; [|done]. cbn [events].
  rewrite closes_app, Model_Load_fd_closes. cbn [opened_rd events].
  rewrite closes_app. cbn. by rewrite app_nil_r.
Qed.

(** *** Warnings *)

Lemma canonical_domain_default (d : string) :
  canonical_domain d = kOnnxDomain ↔ d = EmptyString ∨ d = kOnnxDomainAlias.
Proof.
  unfold canonical_domain, kOnnxDomain. case_decide as Hd.
  - split; [by right|done].
  - split; [by left|]. by intros [?|?].
Qed.

Lemma low_opset_warning_Some (e : OperatorSetIdProto) (v : Z) :
  low_opset_warning e = Some v ↔
  canonical_domain (domain e) = kOnnxDomain ∧ version e = v ∧ v < 7.
Proof.
  unfold low_opset_warning. rewrite canonical_domain_default.
  case_bool_decide as Hd; cbn [andb].
  - destruct (Z.ltb_spec (version e) 7); split.
    + by intros [= <-].
    + by intros (_ & -> & _).
    + done.
    + intros (_ & <- & ?). lia.
  - split; [done|]. by intros [? _].
Qed.

(** X17.  The warnings of a descriptor load: a warning for version [v] is
    logged exactly when the descriptor has a graph and an import of the
    default domain, under either spelling, whose version is [v] and below
    7.  The version tested is the one in the descriptor, before the cast
    to [int]. *)
Theorem Load_proto_warnings (mp : ModelProto)
    (regs : option (list IOnnxRuntimeOpSchemaCollection))
    (h : option Model) (v : Z) :
  EvWarning v ∈ events (Model_Load_proto mp regs (initially h)).2 ↔
  has_graph mp = true
  ∧ ∃ e, e ∈ opset_import mp ∧ canonical_domain (domain e) = kOnnxDomain
         ∧ version e = v ∧ v < 7.
Proof.
  unfold Model_Load_proto. destruct (has_graph mp) eqn:Hg; cbn [negb].
  2:{ cbn. split; [by intros ?%elem_of_nil|by intros [? _]]. }
  rewrite construct_and_resolve_run.
  destruct (opset_import mp) as [|e0 l] eqn:Hl.
  - assert (Hthrow : ∃ ex, Model_from_proto (Some mp) regs = Throw ex).
    { unfold Model_from_proto. rewrite Hg. cbn [negb].
      unfold opset_import_size. rewrite Hl. by eexists. }
    destruct Hthrow as [ex ->]. cbn [snd events initially].
    split.
    + intros [?%elem_of_nil|Hin%list_elem_of_singleton]%elem_of_app; done.
    + intros [_ (e & He%elem_of_nil & _)]. done.
  - rewrite Model_from_proto_checked by (done || by rewrite Hl).
    cbn [snd events initially]. unfold Model_from_proto_warnings. rewrite Hl.
    rewrite !elem_of_app, list_elem_of_fmap.
    setoid_rewrite list_elem_of_omap. setoid_rewrite low_opset_warning_Some.
    split.
    + intros [[[?%elem_of_nil|Hin%list_elem_of_singleton]|(w & [= <-] & e & He & Hw)]
             |Hin%list_elem_of_singleton]; try done.
      split; [done|]. by exists e.
    + intros [_ (e & He & Hw)]. left. right. exists v. split; [done|]. by exists e.
Qed.

End LifecycleExtras.

(** * The properties on the concrete world *)

Import Fixture.

Lemma alias_entry_later_wins_witness :
  ∃ m, Model_from_proto (Some both_spellings_proto) None = Return m
       ∧ graph_domain_to_version (graph_ m) !! kOnnxDomain = Some 11
       ∧ filter (λ kv : string * Z, kv.1 = kOnnxDomain)
           (map_to_list (graph_domain_to_version (graph_ m)))
         = [(kOnnxDomain, 11)].
Proof.
  apply (alias_entry_later_wins both_spellings_proto None [] [] []).
  - reflexivity.
  - reflexivity.
  - constructor.
Defined.

Lemma default_fill_adds_missing_witness :
  ∃ m, Model_from_proto (Some sound_proto) None = Return m
    ∧ opset_import (model_proto_ m)
      = [mk_opset EmptyString 9; mk_opset "ai.onnx.ml" 2].
Proof.
  destruct (default_fill_adds_missing sound_proto None)
    as (m & Hm & _ & _ & _ & Hlist).
  - reflexivity.
  - discriminate.
  - apply (bool_decide_unpack _). by vm_compute.
  - exists m. split; [exact Hm|]. rewrite Hlist. reflexivity.
Defined.

Lemma opset_import_nonempty_witness :
  opset_import (model_proto_ (Model_fresh "main" true [] [] [] [])) ≠ [].
Proof.
  apply opset_import_nonempty. constructor. intros _. discriminate.
Defined.

Lemma default_fill_round_trip_witness :
  ∃ m m', Model_from_proto (Some covering_proto) None = Return m
    ∧ opset_import (ToProto m).1 = opset_import covering_proto
    ∧ Model_from_proto (Some (ToProto m).1) None = Return m'
    ∧ opset_import (ToProto m').1 = opset_import (ToProto m).1.
Proof.
  apply (default_fill_round_trip covering_proto None).
  - reflexivity.
  - discriminate.
  - repeat constructor.
    + exists (mk_opset "ai.onnx" 10). split; [set_solver|reflexivity].
    + exists (mk_opset "ai.onnx.ml" 1). split; [set_solver|reflexivity].
Defined.

Lemma alias_spelling_kept_witness :
  ∃ m, Model_from_proto (Some covering_proto) None = Return m
    ∧ opset_import (ToProto m).1 !! 0%nat = Some (mk_opset "ai.onnx" 10).
Proof.
  destruct (alias_spelling_kept covering_proto None 0 (mk_opset "ai.onnx" 10))
    as (m & Hm & _ & Hkept & _).
  - reflexivity.
  - reflexivity.
  - reflexivity.
  - by exists m.
Defined.



(** C2 fails on the code: a buffer that decodes to a descriptor with a
    graph and no opset import makes the byte load throw, and so does one
    that decodes to a descriptor without a graph; the path load of the
    same descriptor returns FAIL; the descriptor load returns
    INVALID_ARGUMENT. *)
Lemma constructor_fault_escapes :
  (Model_LoadFromBytes 1 [Byte.x02] None (initially None)).1
    = Throw ("Missing opset in the model. All ModelProtos MUST have at least one entry that"
             +:+ " specifies which version of the ONNX OperatorSet is being imported.")
  ∧ (Model_LoadFromBytes 1 [Byte.x04] None (initially None)).1
    = Throw "ModelProto does not have a graph."
  ∧ (Model_Load_fd 4 None (initially None)).1
    = Throw ("Missing opset in the model. All ModelProtos MUST have at least one entry that"
             +:+ " specifies which version of the ONNX OperatorSet is being imported.")
  ∧ (Model_Load_path "noopset.onnx" None (initially None)).1
    = Return (Status_error ONNXRUNTIME FAIL
                ("Missing opset in the model. All ModelProtos MUST have at least one entry that"
                 +:+ " specifies which version of the ONNX OperatorSet is being imported."))
  ∧ (Model_Load_proto no_opset_proto None (initially None)).1
    = Return (Status_error ONNXRUNTIME INVALID_ARGUMENT
                ("Failed to load model with error: "
                 +:+ "Missing opset in the model. All ModelProtos MUST have at least one entry that"
                 +:+ " specifies which version of the ONNX OperatorSet is being imported."))
  ∧ FAIL ≠ INVALID_ARGUMENT.
Proof. repeat split; try reflexivity. discriminate. Qed.

Lemma open_failure_mapped_witness :
  ∃ st s', LoadModel "missing.onnx" None (initially None) = (Return st, s')
    ∧ events s' = [EvFileOpenRd "missing.onnx"]
    ∧ p_model s' = None
    ∧ st = Status_error ONNXRUNTIME NO_SUCHFILE
             "Load model missing.onnx failed. File doesn't exist".
Proof.
  destruct (open_failure_mapped "missing.onnx" None (initially None))
    as (st & s' & Hrun & Hevents & Hhandle & Hst).
  - reflexivity.
  - reflexivity.
  - exists st, s'. split; [exact Hrun|]. split; [exact Hevents|].
    split; [exact Hhandle|]. rewrite Hst. reflexivity.
Defined.

Lemma file_released_once_witness :
  (∃ st s', LoadModel "noopset.onnx" None (initially None) = (Return st, s')
     ∧ closes (events s') = [4]
     ∧ st = Status_error ONNXRUNTIME FAIL
              ("Missing opset in the model. All ModelProtos MUST have at least one entry that"
               +:+ " specifies which version of the ONNX OperatorSet is being imported."))
  ∧ (∃ st s', SaveModel (Model_fresh "main" true [] [] [] []) "out.onnx"
                (initially None) = (Return st, s')
     ∧ closes (events s') = [7]).
Proof.
  split.
  - destruct (proj1 file_released_once "noopset.onnx" None (initially None) 4)
      as (st & s' & Hrun & _ & Hcloses & Hst); [reflexivity|].
    exists st, s'. split; [exact Hrun|]. split; [exact Hcloses|exact Hst].
  - destruct (proj2 file_released_once (Model_fresh "main" true [] [] [] [])
                "out.onnx" (initially None) 7)
      as (st & s' & Hrun & _ & Hcloses & _); [reflexivity|].
    exists st, s'. split; [exact Hrun|exact Hcloses].
Defined.

(** The order of the two spellings decides: with the canonical entry
    last, its version is the one in the table. *)
Example canonical_entry_later_wins :
  explicit_table [mk_opset "ai.onnx" 11; mk_opset EmptyString 9] !! kOnnxDomain
  = Some 9.
Proof. reflexivity. Qed.

(** A version that does not fit 32 bits is cut by the cast. *)
Example narrow_cast_wraps :
  explicit_table [mk_opset EmptyString (2 ^ 32 + 5)] !! kOnnxDomain = Some 5.
Proof. reflexivity. Qed.

Lemma Load_istream_null_pointer_witness :
  @Model_Load_istream schema engine ([Byte.x01], false) (Some sound_proto)
  = (Status_error ONNXRUNTIME INVALID_ARGUMENT "Invalid istream object.",
     ([Byte.x01], false), Some sound_proto).
Proof.
  apply (proj2 (@Load_istream_null_pointer schema engine
                  ([Byte.x01], false) (Some sound_proto))).
  reflexivity.
Defined.

(** ** The further properties on the concrete world *)

Import FixtureMore.

Lemma decoded_table_last_entry_witness :
  ∃ m, Model_from_proto (Some annotated_proto) None = Return m
       ∧ graph_domain_to_version (graph_ m) !! "com.example" = Some 3.
Proof.
  apply (decoded_table_last_entry annotated_proto None "com.example"
           (mk_opset "com.example" (2 ^ 32 + 3))).
  - reflexivity.
  - reflexivity.
Defined.

Lemma decoded_table_alias_key_witness :
  kOnnxDomainAlias
  ∈ (GetLatestOpsetVersions (make_schema_registry (Some [("ai.onnx", 11)])) false).*1.
Proof.
  apply (decoded_table_alias_key (Some sound_proto) (Some [("ai.onnx", 11)])
           (Model_from_checked_proto sound_proto (Some [("ai.onnx", 11)]))).
  - reflexivity.
  - exists 11. reflexivity.
Defined.

Lemma decoded_table_fits_int_witness :
  fits_int 5 ∨ (EmptyString, 5) ∈ GetLatestOpsetVersions (make_schema_registry None) false.
Proof.
  apply (decoded_table_fits_int (Some annotated_proto) None
           (Model_from_checked_proto annotated_proto None) EmptyString 5).
  - reflexivity.
  - reflexivity.
Defined.

Lemma default_fill_idempotent_witness :
  ∃ m m', Model_from_proto (Some sound_proto) None = Return m
    ∧ Model_from_proto (Some (ToProto m).1) None = Return m'
    ∧ opset_import (ToProto m').1 = opset_import (ToProto m).1.
Proof.
  apply (default_fill_idempotent sound_proto None).
  - reflexivity.
  - discriminate.
  - apply (bool_decide_unpack _). by vm_compute.
Defined.

Lemma decoded_metadata_last_wins_witness :
  ∃ p, Some annotated_proto = Some p
       ∧ MetaData (Model_from_checked_proto annotated_proto None) !! "author"
         = value <$> last_such (λ prop, key prop = "author") (metadata_props p).
Proof.
  apply (decoded_metadata_last_wins (Some annotated_proto) None
           (Model_from_checked_proto annotated_proto None) "author").
  reflexivity.
Defined.

Lemma fresh_then_decoded_witness :
  ∃ m', Model_from_proto
          (Some (ToProto (Model_fresh "main" false [("author", "ada")] []
                            [(EmptyString, 13)] [relu])).1)
          (Some []) = Return m'
    ∧ MetaData m' = list_to_map [("author", "ada")]
    ∧ graph_domain_to_version (graph_ m')
      = list_to_map [(EmptyString, 13)]
        ∪ list_to_map (GetLatestOpsetVersions (make_schema_registry (Some [])) false)
    ∧ functions (model_proto_ m') = [relu]
    ∧ Model_IrVersion m' = IR_VERSION.
Proof.
  apply (fresh_then_decoded "main" false [("author", "ada")] [] [(EmptyString, 13)] [relu]).
  - discriminate.
  - apply (bool_decide_unpack _). by vm_compute.
  - apply (bool_decide_unpack _). by vm_compute.
  - apply (bool_decide_unpack _). by vm_compute.
  - repeat constructor; cbn; lia.
Defined.

Lemma setters_survive_round_trip_witness :
  ∃ m', Model_from_proto
          (Some (ToProto (SetDocString "doc" (SetModelversion 3 (SetDomain "example.com"
                   (SetProducerVersion "1.2" (SetProducerName "X"
                      (Model_fresh "main" true [] [] [] []))))))).1) None
        = Return m'
    ∧ ProducerName m' = "X" ∧ ProducerVersion m' = "1.2" ∧ Domain m' = "example.com"
    ∧ ModelVersion m' = 3 ∧ DocString m' = "doc"
    ∧ Model_IrVersion m' = Model_IrVersion (Model_fresh "main" true [] [] [] []).
Proof.
  apply (setters_survive_round_trip (Model_fresh "main" true [] [] [] []) None).
  discriminate.
Defined.

Lemma AddFunction_round_trip_witness :
  ∃ m', Model_from_proto
          (Some (ToProto (AddFunction relu (Model_fresh "main" true [] [] [] [relu]))).1)
          None = Return m'
    ∧ graph_model_functions (graph_ m') !! "Relu" = Some 1%nat.
Proof.
  destruct (AddFunction_round_trip relu (Model_fresh "main" true [] [] [] [relu]) None)
    as (m' & Hm' & _ & Hptr & _).
  - discriminate.
  - by exists m'.
Defined.

Lemma load_OK_binds_resolved_model_witness :
  ∃ mp m, Model_from_proto (Some mp) None = Return m
    ∧ IsOK (Resolve (graph_ m) true).1 = true
    ∧ p_model (run_load (FromPath "model.onnx") None (initially None)).2
      = Some (with_graph_ (Resolve (graph_ m) true).2 m).
Proof.
  apply (load_OK_binds_resolved_model (FromPath "model.onnx") None None Status_OK).
  - reflexivity.
  - reflexivity.
Defined.

Lemma path_load_OK_trace_witness :
  events (LoadModel "model.onnx" None (initially None)).2
  = [EvFileOpenRd "model.onnx"; EvParseFromFd 3; EvNewModel; EvResolve true;
     EvFileClose 3].
Proof.
  rewrite (path_load_OK_trace "model.onnx" None None
             (LoadModel "model.onnx" None (initially None)).2); reflexivity.
Defined.

Lemma save_unresolved_writes_nothing_witness :
  ∃ model', SaveModel (Model_fresh "cyclic" true [] [] [] []) "out.onnx" (initially None)
      = (Return (Status_error ONNXRUNTIME 10 "graph has a cycle", model'),
         {| events := [EvFileOpenWr "out.onnx"; EvResolve false; EvFileClose 7];
            p_model := None |})
    ∧ model_proto_ model' = model_proto_ (Model_fresh "cyclic" true [] [] [] []).
Proof.
  destruct (save_unresolved_writes_nothing (Model_fresh "cyclic" true [] [] [] [])
              "out.onnx" (initially None) 7) as (model' & Hrun & Hproto).
  - reflexivity.
  - discriminate.
  - reflexivity.
  - exists model'. split; [rewrite Hrun; reflexivity|exact Hproto].
Defined.

Lemma save_open_failure_verbatim_witness :
  @SaveModel schema engine_read_only (Model_fresh "main" true [] [] [] [])
    "out.onnx" (initially None)
  = (Return (Status_error SYSTEM 30 EmptyString, Model_fresh "main" true [] [] [] []),
     {| events := [EvFileOpenWr "out.onnx"]; p_model := None |}).
Proof.
  apply (@save_open_failure_verbatim schema engine_read_only
           (Model_fresh "main" true [] [] [] []) "out.onnx" (initially None)).
  reflexivity.
Defined.

Lemma Load_istream_OK_iff_witness :
  (@Model_Load_istream schema engine ([Byte.x01], true) (Some ModelProto_default)).2
  = Some sound_proto.
Proof.
  apply (proj2 (@Load_istream_OK_iff schema engine ([Byte.x01], true)
                  (Some ModelProto_default))).
  reflexivity.
Defined.

Lemma open_failure_not_system_goes_on_witness :
  ∃ st s', LoadModel "remote://model.onnx" None (initially None) = (Return st, s')
    ∧ closes (events s') = [-1]
    ∧ st = Status_error ONNXRUNTIME INVALID_ARGUMENT "<p_fd> less than 0.".
Proof.
  destruct (open_failure_not_system_goes_on "remote://model.onnx" None (initially None))
    as (st & s' & Hrun & Hcloses & Hst).
  - reflexivity.
  - discriminate.
  - exists st, s'. split; [exact Hrun|]. split; [exact Hcloses|]. rewrite Hst. reflexivity.
Defined.

Lemma Load_proto_warnings_witness :
  EvWarning 5 ∈ events (Model_Load_proto annotated_proto None (initially None)).2.
Proof.
  apply (Load_proto_warnings annotated_proto None None 5). split; [reflexivity|].
  exists (mk_opset "ai.onnx" 5). split; [apply list_elem_of_here|].
  split; [reflexivity|]. split; [reflexivity|]. reflexivity.
Defined.

Lemma constructor_exception_converted_witness :
  LoadModel "noopset.onnx" None (initially None)
  = (Return (Status_error ONNXRUNTIME FAIL
               ("Missing opset in the model. All ModelProtos MUST have at least one entry that"
                +:+ " specifies which version of the ONNX OperatorSet is being imported.")),
     {| events := [EvFileOpenRd "noopset.onnx"; EvParseFromFd 4; EvNewModel; EvFileClose 4];
        p_model := None |}).
Proof.
  rewrite (proj2 (constructor_exception_converted None (initially None)
             ("Missing opset in the model. All ModelProtos MUST have at least one entry that"
              +:+ " specifies which version of the ONNX OperatorSet is being imported."))
             "noopset.onnx" no_opset_proto); reflexivity.
Defined.

Lemma constructor_exception_escapes_witness :
  Model_Load_fd 4 None (initially None)
  = (Throw ("Missing opset in the model. All ModelProtos MUST have at least one entry that"
            +:+ " specifies which version of the ONNX OperatorSet is being imported."),
     {| events := [EvParseFromFd 4; EvNewModel]; p_model := None |}).
Proof.
  rewrite (proj2 (constructor_exception_escapes None (initially None)
             ("Missing opset in the model. All ModelProtos MUST have at least one entry that"
              +:+ " specifies which version of the ONNX OperatorSet is being imported."))
             4 no_opset_proto); reflexivity.
Defined.

Lemma save_frame_witness :
  opset_import
    (model_proto_
       (match (SaveModel (Model_fresh "main" true [] [] [] []) "out.onnx"
                 (initially None)).1 with
        | Return saved => saved.2
        | Throw _ => Model_fresh "main" true [] [] [] []
        end))
  = [mk_opset EmptyString 11].
Proof.
  destruct (save_frame (Model_fresh "main" true [] [] [] []) "out.onnx" (initially None)
              Status_OK
              (match (SaveModel (Model_fresh "main" true [] [] [] []) "out.onnx"
                        (initially None)).1 with
               | Return saved => saved.2
               | Throw _ => Model_fresh "main" true [] [] [] []
               end)
              (SaveModel (Model_fresh "main" true [] [] [] []) "out.onnx"
                 (initially None)).2)
    as (_ & _ & _ & _ & _ & _ & _ & _ & Hopset & _).
  - reflexivity.
  - rewrite Hopset. reflexivity.
Defined.
